(** * Eugene: the build-orchestration script [tools/eugene.py]

    A shallow embedding of the script's dispatcher ([parse]), its fuzzy
    matcher ([autocomplete]), its process runner ([do_if], [do_config_cmd],
    [do_config]) and the actions they call, followed by the properties of
    the specification that concern them.

    The script is effectful throughout: it reads lines from standard input,
    spawns child processes, writes [os.environ] and flips the module-level
    flag [retry_avail_].  The embedding threads an explicit [State] through
    a small state-and-exception monad [M]; everything observable is appended
    to the state's [trace], and what the outside world answers (exit
    statuses, whether [build/] can be created) comes from a [World]. *)

From Stdlib Require Import ZArith Ascii.
From stdpp Require Import gmap strings list.

Local Open Scope Z_scope.

(** ** Strings

    Python strings are modelled as Rocq strings; case folding acts on the
    letters A to Z. *)

Module Str.

(** [len(s)] *)
Definition len (s : string) : nat := String.length s.

Definition lower_char (c : ascii) : ascii :=
  let n := Ascii.N_of_ascii c in
  if ((65 <=? n) && (n <=? 90))%N then Ascii.ascii_of_N (n + 32) else c.

(** [s.lower()] *)
Fixpoint lower (s : string) : string :=
  match s with
  | EmptyString => EmptyString
  | String c s' => String (lower_char c) (lower s')
  end.

(** [a == b] on strings *)
Definition eqb (a b : string) : bool := String.eqb a b.

(** [needle in hay]: substring containment. *)
Fixpoint contains (needle hay : string) : bool :=
  String.prefix needle hay ||
  match hay with
  | EmptyString => false
  | String _ hay' => contains needle hay'
  end.

(** [s.split()]: the words of [s], separated by runs of white space. *)
Definition split (s : string) : list string := String.words s.

End Str.

(** Modelled from the spec: [pylev.classic_levenshtein], imported as [lev]
    on line 19 and not part of the repository.  The spec describes it as
    "classic Levenshtein — single-character insert/delete/substitute cost 1";
    this is that distance, by its textbook recursion on the two strings. *)
Fixpoint lev (string_1 : string) : string -> nat :=
  fix lev_1 (string_2 : string) : nat :=
    match string_1, string_2 with
    | EmptyString, _ => Str.len string_2
    | _, EmptyString => Str.len string_1
    | String c1 t1, String c2 t2 =>
        let cost := if Ascii.eqb c1 c2 then 0%nat else 1%nat in
        Nat.min (lev t1 string_2 + 1)
                (Nat.min (lev_1 t2 + 1) (lev t1 t2 + cost))
    end.

(** ** Observable events, the outside world, the state *)

(** What is handed to [subprocess]: an argument vector, or (with
    [shell=True]) one command line. *)
Inductive Cmd : Type :=
| Argv (argv : list string)
| ShellLine (line : string).

Inductive Event : Type :=
| EvPrint (text : string)               (* print(text) *)
| EvPrintStyle (text : string)          (* print_style(text) *)
| EvInput (prompt : string)             (* input(prompt) asked for a line *)
| EvSetEnv (key value : string)         (* os.environ[key] = value *)
| EvMkdir (path : string)               (* os.mkdir(path) *)
| EvRun (c : Cmd)                       (* subprocess.run(c) *)
| EvCheckCall (c : Cmd).                (* subprocess.check_call(c) *)

Global Instance Cmd_eq_dec : EqDecision Cmd.
Proof. solve_decision. Defined.

Global Instance Event_eq_dec : EqDecision Event.
Proof. solve_decision. Defined.

(** How a child process ends: it could not be started, or it exited. *)
Inductive ProcResult : Type :=
| Exited (code : Z)
| LaunchFailed.

(** The world answers from the history of the run so far. *)
Record World : Type := mkWorld {
  spawn : list Event -> Cmd -> ProcResult;
  mkdir_ok : list Event -> string -> bool
}.

Record State : Type := mkState {
  retry_avail_ : bool;                  (* the module-level retry gate *)
  environ : gmap string string;         (* os.environ *)
  stdin : list string;                  (* lines still to be read *)
  trace : list Event                    (* everything done so far, oldest first *)
}.

Definition set_retry (b : bool) (st : State) : State :=
  mkState b (environ st) (stdin st) (trace st).

Definition set_environ (e : gmap string string) (st : State) : State :=
  mkState (retry_avail_ st) e (stdin st) (trace st).

Definition set_stdin (l : list string) (st : State) : State :=
  mkState (retry_avail_ st) (environ st) l (trace st).

Definition log (e : Event) (st : State) : State :=
  mkState (retry_avail_ st) (environ st) (stdin st) (trace st ++ [e]).

(** The events a computation added on its way from [st] to [st']. *)
Definition emitted (st st' : State) : list Event :=
  drop (length (trace st)) (trace st').

(** ** The monad: state, Python exceptions, [sys.exit] *)

Inductive Exn : Type :=
| AssertionError (msg : string)
| EOFError
| OSError
| CalledProcessError
| IndexError
| RecursionError.

Inductive Outcome (A : Type) : Type :=
| Ret (a : A)
| Raise (e : Exn)
| SysExit (code : Z).

Arguments Ret {A} a.
Arguments Raise {A} e.
Arguments SysExit {A} code.

Definition M (A : Type) : Type := State -> Outcome A * State.

Definition ret {A} (a : A) : M A := fun st => (Ret a, st).

Definition bind {A B} (m : M A) (k : A -> M B) : M B :=
  fun st =>
    match m st with
    | (Ret a, st') => k a st'
    | (Raise e, st') => (Raise e, st')
    | (SysExit c, st') => (SysExit c, st')
    end.

Definition raise {A} (e : Exn) : M A := fun st => (Raise e, st).

Definition sys_exit {A} (code : Z) : M A := fun st => (SysExit code, st).

Declare Scope eugene_scope.
Delimit Scope eugene_scope with eugene.

Notation "x <- m ;; k" := (bind m (fun x => k))
  (at level 100, m at next level, right associativity) : eugene_scope.
Notation "m ;; k" := (bind m (fun _ => k))
  (at level 100, right associativity) : eugene_scope.

Local Open Scope eugene_scope.

(** [assert cond, msg] *)
Definition assert_ (cond : bool) (msg : string) : M unit :=
  if cond then ret tt else raise (AssertionError msg).

(** [try: body  except OSError: handler] *)
Definition try_except_OSError {A} (body handler : M A) : M A :=
  fun st =>
    match body st with
    | (Raise OSError, st') => handler st'
    | r => r
    end.

(** [try: body  except: handler] — a bare [except] also catches
    [SystemExit]. *)
Definition try_except {A} (body handler : M A) : M A :=
  fun st =>
    match body st with
    | (Ret a, st') => (Ret a, st')
    | (_, st') => handler st'
    end.

(** ** The script *)

(** Lines 63–70: the command registry. *)
Record Param : Type := mkParam {
  field : string;
  desc : string;
  subcmds : list string
}.

Definition AvailableParams : list Param := [
  mkParam "build" "build project only" ["test: builds tests"; "doc: builds doc"];
  mkParam "test" "build tests" ["runtest: runs tests"];
  mkParam "lint" "run local linters" ["style: clang-format"; "tidy: ctidy"];
  mkParam "doc" "build local documentation" ["updoc: uploads to gh-pages"];
  mkParam "clean" "clean metadata"
          ["ignored: removes all files and dirs from the .gitignore"]
].

(** What [autocomplete] hands back: [False] when the gate is closed, [None]
    when nothing is suggested or the suggestion is declined, otherwise the
    accepted command name. *)
Inductive Suggestion : Type :=
| PyFalse
| PyNone
| PyStr (s : string).

(** Python truthiness of such a value ([if actual_cmd:]). *)
Definition truthy (r : Suggestion) : bool :=
  match r with
  | PyStr s => negb (Str.eqb s "")
  | _ => false
  end.

(** [lev_ <= required] with [required = 0.5 * len(arg)]: an integer compared
    with a float that holds half of an integer exactly, so the comparison is
    the one of [2 * lev_] with [len(arg)]. *)
Definition within_required (lev_ len_arg : nat) : bool :=
  (2 * lev_ <=? len_arg)%nat.

Definition proceed_prompt (avail_arg : string) : string :=
  "Proceed with '" +:+ avail_arg +:+ "'? Y/n: ".

Definition tab : string := String (Ascii.ascii_of_nat 9) "".
Definition nl : string := String (Ascii.ascii_of_nat 10) "".
Definition dquote : string := String (Ascii.ascii_of_nat 34) "".

(** Lines 168–175.  The colour escape sequences that [get_color] and
    [Style.RESET_ALL] weave into console text are left out of the text of
    an event: they decorate the output and nothing branches on them. *)
Definition usage_str : string :=
  fold_left
    (fun acc f =>
       fold_left (fun acc sc => acc +:+ tab +:+ tab +:+ " - " +:+ sc +:+ nl)
                 (subcmds f)
                 (acc +:+ tab +:+ "• " +:+ field f +:+ " is used to "
                      +:+ desc f +:+ nl))
    AvailableParams
    (nl +:+ tab +:+ "Eugene multifunctional script" +:+ nl +:+ tab
        +:+ "=============================" +:+ nl +:+ nl).

Section Script.

Variable w : World.

(** *** Primitives *)

Definition emit (e : Event) : M unit := fun st => (Ret tt, log e st).

Definition print (text : string) : M unit := emit (EvPrint text).

(** Lines 45–48. *)
Definition print_style (text : string) : M unit := emit (EvPrintStyle text).

(** [input(prompt)]: writes the prompt and reads one line; at end of
    input it raises [EOFError]. *)
Definition input (prompt : string) : M string :=
  fun st =>
    let st1 := log (EvInput prompt) st in
    match stdin st1 with
    | [] => (Raise EOFError, st1)
    | line :: rest => (Ret line, set_stdin rest st1)
    end.

(** [os.environ[key] = value] *)
Definition setenv (key value : string) : M unit :=
  fun st =>
    (Ret tt, log (EvSetEnv key value)
                 (set_environ (<[key := value]> (environ st)) st)).

(** [os.mkdir(path)] *)
Definition os_mkdir (path : string) : M unit :=
  fun st =>
    let st1 := log (EvMkdir path) st in
    if mkdir_ok w (trace st) path then (Ret tt, st1) else (Raise OSError, st1).

(** [sp.run(c)]: the exit status ends up in a [CompletedProcess] that the
    script drops; only a child that cannot be started raises. *)
Definition sp_run (c : Cmd) : M unit :=
  fun st =>
    let st1 := log (EvRun c) st in
    match spawn w (trace st) c with
    | Exited _ => (Ret tt, st1)
    | LaunchFailed => (Raise OSError, st1)
    end.

(** [sp.check_call(c)]: raises on a non-zero exit status as well. *)
Definition sp_check_call (c : Cmd) : M unit :=
  fun st =>
    let st1 := log (EvCheckCall c) st in
    match spawn w (trace st) c with
    | Exited 0 => (Ret tt, st1)
    | Exited _ => (Raise CalledProcessError, st1)
    | LaunchFailed => (Raise OSError, st1)
    end.

(** *** Lines 55–60 *)
Definition do_if (cmd msg : string) (qprompt : bool) : M unit :=
  if qprompt then
    out <- input (msg +:+ " Ok? ") ;;
    let out := Str.lower out in
    if negb (Str.eqb out "") && negb (Str.eqb out "y") then ret tt
    else sp_run (Argv (Str.split cmd))
  else sp_run (Argv (Str.split cmd)).

(** *** Lines 75–92 *)

(** The [for avail_arg in avail_args] loop, with the two statements that
    follow it when it ends or is left by [break]. *)
Fixpoint autocomplete_scan (arg : string) (avail_args : list string)
  : M Suggestion :=
  match avail_args with
  | [] => print "" ;; ret PyNone
  | avail_arg :: rest =>
      let lev_ := lev arg avail_arg in
      if within_required lev_ (Str.len arg) then
        print_style (proceed_prompt avail_arg) ;;
        answer <- input "" ;;
        if Str.eqb (Str.lower answer) "y" then
          print "" ;; ret (PyStr avail_arg)
        else
          print "" ;; ret PyNone
      else autocomplete_scan arg rest
  end.

Definition avail_args : list string := map field AvailableParams.

Definition autocomplete (arg : string) : M Suggestion :=
  fun st =>
    if negb (retry_avail_ st) then (Ret PyFalse, st)
    else autocomplete_scan arg avail_args
           (set_retry (negb (retry_avail_ st)) st).

(** *** Lines 95–112 *)
Definition cmake_command (compiler_matrix : string * string) : list string :=
  Str.split ("cmake -S. -Bbuild -GNinja             -DCMAKE_C_COMPILER="
             +:+ fst compiler_matrix
             +:+ "             -DCMAKE_CXX_COMPILER=" +:+ snd compiler_matrix).

Definition conan_install_command : list string :=
  Str.split "conan install . -if build --build=missing".

Definition do_config_cmd (compiler_matrix : string * string) : M bool :=
  setenv "CC" (fst compiler_matrix) ;;
  setenv "CXX" (snd compiler_matrix) ;;
  print_style "Trying to configure project ..." ;;
  try_except
    (sp_check_call (Argv conan_install_command) ;;
     sp_run (Argv conan_install_command) ;;
     sp_check_call (Argv (cmake_command compiler_matrix)) ;;
     sp_run (Argv (cmake_command compiler_matrix)) ;;
     print_style "Configuration successful!" ;;
     ret true)
    (print_style "Configuration failed :(" ;;
     ret false).

(** *** Lines 115–124 *)
Definition do_config : M unit :=
  try_except_OSError
    (os_mkdir "build/" ;;
     print "INFO: Created 'build/' directory")
    (print_style "INFO: 'build/' directory already exists") ;;
  ok <- do_config_cmd ("gcc-11", "g++-11") ;;
  if negb ok then
    ok' <- do_config_cmd ("gcc", "g++") ;;
    if negb ok' then sys_exit (-1) else ret tt
  else ret tt.

(** *** Lines 126–135 *)
Definition ninja_command : string := "ninja -Cbuild -j4".

Definition do_build (test doc : bool) : M unit :=
  do_config ;;
  (if test then setenv "EUGENE_BUILD_TESTS" "1" else ret tt) ;;
  print_style ("Building project" +:+ (if test then " and tests" else "")) ;;
  sp_run (Argv (Str.split ninja_command)) ;;
  if doc then raise (AssertionError "Building doc is not yet supported")
  else ret tt.

(** *** Lines 142–145 *)
Definition do_run_test : M unit :=
  print_style "Running tests" ;;
  sp_run (Argv (Str.split
    "ctest --rerun-failed --output-on-failure --test-dir build/")).

(** *** Lines 148–149 *)
Definition do_updoc : M unit := print "Uploading docs".

(** *** Lines 152–158 *)
Definition do_lint : M unit :=
  print "Linting" ;;
  sp_run (Argv (Str.split "clang-format-all src/core src/eugene-api")) ;;
  sp_run (ShellLine ("find . -name " +:+ dquote +:+ "CMakeLists.txt" +:+ dquote
                     +:+ " | xargs cmake-format -i")).

(** *** Lines 161–165 *)
Definition do_clean (is_kind : bool) : M unit :=
  do_if "rm -rf build" "Removing build directory" is_kind ;;
  do_if "rm -f build.log" "Removing build logs" is_kind ;;
  print_style "Clean without scratching".

(** *** Lines 168–175 *)
Definition usage : M unit := print usage_str.

(** [cmd_args[0]] *)
Definition first_arg (cmd_args : list string) : M string :=
  match cmd_args with
  | a :: _ => ret a
  | [] => raise IndexError
  end.

(** [cmd_argc == 1 and sub in cmd_args[0]]: the subscript is evaluated
    only when the count is one. *)
Definition sole_arg_has (sub : string) (cmd_args : list string) (cmd_argc : Z)
  : M bool :=
  if cmd_argc =? 1 then
    a <- first_arg cmd_args ;; ret (Str.contains sub a)
  else ret false.

(** Line 198:
    [(cmd_argc == 1 and 'force' in cmd_args[0]) or cmd_argc == 0] *)
Definition clean_forced (cmd_args : list string) (cmd_argc : Z) : M bool :=
  has_force <- sole_arg_has "force" cmd_args cmd_argc ;;
  ret (has_force || (cmd_argc =? 0)).

(** Line 199: [cmd_argc == 1 and 'kind' in cmd_args[0]] *)
Definition clean_kind (cmd_args : list string) (cmd_argc : Z) : M bool :=
  sole_arg_has "kind" cmd_args cmd_argc.

(** *** Lines 178–218

    [parse_body self] is the body of [parse] with its recursive call on
    line 218 going to [self]. *)
Definition parse_body
    (self : list string -> string -> list string -> Z -> M unit)
    (cmd_line : list string) (cmd : string) (cmd_args : list string)
    (cmd_argc : Z) : M unit :=
  assert_ (cmd_argc <=? 1) "" ;;
  if Str.eqb cmd "build" then
    test_doc <-
       (if cmd_argc =? 1 then
          a <- first_arg cmd_args ;;
          a' <- first_arg cmd_args ;;
          ret (Str.contains "test" a, Str.contains "doc" a')
        else ret (false, false)) ;;
    do_build (fst test_doc) (snd test_doc)
  else if Str.eqb cmd "config" then
    assert_ (cmd_argc =? 0) "" ;;
    do_config
  else if Str.eqb cmd "test" then
    do_build true false ;;
    run <- sole_arg_has "run" cmd_args cmd_argc ;;
    if run then do_run_test else ret tt
  else if Str.eqb cmd "clean" || Str.eqb cmd "mrproper" then
    forced <- clean_forced cmd_args cmd_argc ;;
    kind <- clean_kind cmd_args cmd_argc ;;
    do_clean (kind && negb forced)
  else if Str.eqb cmd "lint" then
    assert_ (cmd_argc =? 0) "" ;;
    do_lint
  else if Str.eqb cmd "doc" then
    do_build false true ;;
    up <- sole_arg_has "up" cmd_args cmd_argc ;;
    if up then do_updoc else ret tt
  else if Str.eqb cmd "version" then
    print "Eugene 0.01"
  else
    usage ;; print nl ;;
    actual_cmd <- autocomplete cmd ;;
    match actual_cmd with
    | PyStr s => if truthy actual_cmd
                 then self cmd_line s cmd_args cmd_argc else ret tt
    | _ => ret tt
    end.

(** [parse] calls itself.  The interpreter allows a bounded depth of
    nested calls ([sys.getrecursionlimit()], 1000 unless changed) and
    raises [RecursionError] beyond it; [parse_depth n] is [parse] with
    [n] nested calls still allowed. *)
Fixpoint parse_depth (n : nat) (cmd_line : list string) (cmd : string)
    (cmd_args : list string) (cmd_argc : Z) : M unit :=
  match n with
  | O => raise RecursionError
  | S n' => parse_body (parse_depth n') cmd_line cmd cmd_args cmd_argc
  end.

Definition recursion_limit : nat := 1000.

Definition parse : list string -> string -> list string -> Z -> M unit :=
  parse_depth recursion_limit.

(** *** Lines 221–227: [sys.argv] to the process's end

    The exit status of a run that ends normally is 0. *)
Definition main (argv : list string) : M unit :=
  if (length argv <? 2)%nat then
    usage ;; sys_exit 0
  else
    let args := map Str.lower argv in
    match drop 1 args with
    | cmd :: _ =>
        parse (drop 1 args) cmd (drop 2 args) (Z.of_nat (length args) - 2)
    | [] => raise IndexError
    end.

End Script.

(** ** Vocabulary of the properties *)

(** A fresh process: the gate open, nothing done yet. *)
Definition fresh (env : gmap string string) (lines : list string) : State :=
  mkState true env lines [].

(** A world in which every tool is installed and succeeds, and [build/]
    can be created. *)
Definition world_ok : World :=
  mkWorld (fun _ _ => Exited 0) (fun _ _ => true).

(** A world in which every child process exits with status 1. *)
Definition world_failing : World :=
  mkWorld (fun _ _ => Exited 1) (fun _ _ => true).

(** A world in which no tool can be started. *)
Definition world_bare : World :=
  mkWorld (fun _ _ => LaunchFailed) (fun _ _ => false).

(** The command names [parse] has a branch for. *)
Definition dispatchable : list string :=
  ["build"; "config"; "test"; "clean"; "mrproper"; "lint"; "doc"; "version"].

(** [cand] is within the matcher's threshold of [arg]. *)
Definition qualifies (arg cand : string) : Prop :=
  (2 * lev arg cand <= Str.len arg)%nat.

(** [cand] is the first name of [names] that qualifies. *)
Definition first_qualifying (arg : string) (names : list string)
    (cand : string) : Prop :=
  exists pre post,
    names = pre ++ cand :: post
    /\ qualifies arg cand
    /\ Forall (fun c => ~ qualifies arg c) pre.

(** The user was asked whether to proceed with [cand]. *)
Definition offered (evs : list Event) (cand : string) : Prop :=
  EvPrintStyle (proceed_prompt cand) ∈ evs.

(** Events that start a child process. *)
Definition is_spawn (e : Event) : bool :=
  match e with
  | EvRun _ | EvCheckCall _ => true
  | _ => false
  end.

(** Two worlds that differ at most in the exit statuses of the children
    they start. *)
Definition same_launches (w w' : World) : Prop :=
  (forall h c, spawn w h c = LaunchFailed <-> spawn w' h c = LaunchFailed)
  /\ (forall h p, mkdir_ok w h p = mkdir_ok w' h p).

(** What [autocomplete] does once it has found the name it will offer:
    lines 86–92 for that name. *)
Definition ask (avail_arg : string) : M Suggestion :=
  print_style (proceed_prompt avail_arg) ;;
  answer <- input "" ;;
  if Str.eqb (Str.lower answer) "y" then print "" ;; ret (PyStr avail_arg)
  else print "" ;; ret PyNone.

(** A computation that never reopens a closed gate. *)
Definition keeps_gate_closed {A} (m : M A) : Prop :=
  forall st, retry_avail_ st = false -> retry_avail_ (m st).2 = false.

(** The values given to the environment variable [key], in order. *)
Definition values_set (key : string) (evs : list Event) : list string :=
  omap (fun e => match e with
                 | EvSetEnv k v => if Str.eqb k key then Some v else None
                 | _ => None
                 end) evs.

(** The compiler pairs configuration was attempted with, in order: each
    attempt starts by exporting [CC] and [CXX]. *)
Definition toolchains_tried (evs : list Event) : list (string * string) :=
  zip (values_set "CC" evs) (values_set "CXX" evs).

(** How often [e] occurs. *)
Definition occurrences (e : Event) (evs : list Event) : nat :=
  length (filter (fun x => x = e) evs).

(** The number of attempts that reported failure. *)
Definition failed_attempts (evs : list Event) : nat :=
  occurrences (EvPrintStyle "Configuration failed :(") evs.

(** The child processes started, in order. *)
Definition spawns (evs : list Event) : list Event :=
  filter (fun e => is_spawn e = true) evs.

(** The events of a configuration attempt that succeeds. *)
Definition successful_attempt (compiler_matrix : string * string) : list Event :=
  [ EvSetEnv "CC" (fst compiler_matrix);
    EvSetEnv "CXX" (snd compiler_matrix);
    EvPrintStyle "Trying to configure project ...";
    EvCheckCall (Argv conan_install_command);
    EvRun (Argv conan_install_command);
    EvCheckCall (Argv (cmake_command compiler_matrix));
    EvRun (Argv (cmake_command compiler_matrix));
    EvPrintStyle "Configuration successful!" ].

(** The two compiler pairs of lines 122 and 123. *)
Definition primary_toolchain : string * string := ("gcc-11", "g++-11").
Definition fallback_toolchain : string * string := ("gcc", "g++").

(** Some occurrence of [a] in [evs] comes before some occurrence of [b]. *)
Fixpoint occurs_before (a b : Event) (evs : list Event) : bool :=
  match evs with
  | [] => false
  | e :: rest =>
      (bool_decide (e = a) && bool_decide (b ∈ rest)) || occurs_before a b rest
  end.

(** The export of line 130. *)
Definition test_flag_set : Event := EvSetEnv "EUGENE_BUILD_TESTS" "1".

(** The build execution of line 132. *)
Definition ninja_run : Event := EvRun (Argv (Str.split ninja_command)).

(** The reading of the [build test] scenario in which the flag comes
    first: the flag is exported, then configuration starts (its first step
    is the [os.mkdir] of line 117), then the build is executed, and the run
    ends normally. *)
Definition flag_then_config_then_build (w : World) (sub : string) (st : State)
    : Prop :=
  environ (parse w ["build"; sub] "build" [sub] 1 st).2 !! "EUGENE_BUILD_TESTS"
  = Some "1"
  /\ occurs_before test_flag_set (EvMkdir "build/")
       (emitted st (parse w ["build"; sub] "build" [sub] 1 st).2) = true
  /\ occurs_before (EvMkdir "build/") ninja_run
       (emitted st (parse w ["build"; sub] "build" [sub] 1 st).2) = true
  /\ (parse w ["build"; sub] "build" [sub] 1 st).1 = Ret tt.

(** The state in which a fresh process finds itself once configuration has
    succeeded, all tools present. *)
Definition configured : State := (do_config world_ok (fresh ∅ [])).2.

(** ** The rest of the script *)

(** Lines 8–13: the [for req in reqs] loop of [setup]. *)
Fixpoint setup_loop (w : World) (pip : string) (reqs : list string) : M unit :=
  match reqs with
  | [] => ret tt
  | req :: rest =>
      let cmd := pip +:+ " install " +:+ req in
      print cmd ;;
      sp_run w (Argv (Str.split cmd)) ;;
      setup_loop w pip rest
  end.

Definition setup (w : World) (pip : string) : M unit :=
  setup_loop w pip ["cmake-format"; "colorama"; "pylev"].

(** Lines 21–26: what the script does when an import of lines 17–19 has
    failed, up to the second round of imports.  [input(...) if not None
    else "pip"] always asks, [not None] being true. *)
Definition install_missing (w : World) : M unit :=
  answer <- input "Install missing modules? Y/n " ;;
  if negb (Str.eqb (Str.lower answer) "y") then sys_exit 0
  else
    pip_cand <-
      input "How is `pip` spelled - pip2, pip3, etc.? [default: `pip`] " ;;
    print ("Entered '" +:+ pip_cand +:+ "'") ;;
    setup w (if negb (Str.eqb pip_cand "") then pip_cand else "pip").

(** Lines 32–42.  [get_color] draws from [colors] until the draw differs
    from [previous_color_], stores it there and returns it.  The random
    source is the list of numbers it is going to yield; [random.choice]
    takes the element at a position below the length of the sequence.  When
    the numbers run out with the loop still going, there is no result. *)
Inductive Color : Type :=
| WHITE | GREEN | YELLOW | BLUE | MAGENTA | CYAN | RED.

Global Instance Color_eq_dec : EqDecision Color.
Proof. solve_decision. Defined.

Definition colors : list Color := [GREEN; YELLOW; BLUE; MAGENTA; CYAN].

Definition choice (seq : list Color) (r : nat) : Color :=
  nth (r mod length seq) seq WHITE.

Fixpoint get_color (draws : list nat) (previous_color_ : Color)
  : option (Color * list nat) :=
  match draws with
  | [] => None
  | r :: rest =>
      let new_color := choice colors r in
      if bool_decide (new_color <> previous_color_)
      then Some (new_color, rest)
      else get_color rest previous_color_
  end.

(** ** Policies

    A policy says what a computation is allowed to do: which events it may
    add to the trace, whether it may read a line, which environment
    variables it may write, whether it may touch the retry gate. *)
Record Policy : Type := mkPolicy {
  may_emit : Event -> bool;
  may_read : bool;
  may_setenv : string -> bool;
  may_touch_gate : bool
}.

(** [st'] was reached from [st] without leaving the policy. *)
Definition within (p : Policy) (st st' : State) : Prop :=
  (exists evs, trace st' = trace st ++ evs /\ forallb (may_emit p) evs = true)
  /\ (may_read p = false -> stdin st' = stdin st)
  /\ (forall k, may_setenv p k = false -> environ st' !! k = environ st !! k)
  /\ (may_touch_gate p = false -> retry_avail_ st' = retry_avail_ st).

Definition stays_within {A} (p : Policy) (m : M A) : Prop :=
  forall st, within p st (m st).2.

(** [key] is one of [keys]. *)
Definition key_in (keys : list string) (key : string) : bool :=
  existsb (Str.eqb key) keys.

(** A [check_call] that lets the script go on. *)
Definition checked_ok (r : ProcResult) : bool :=
  match r with
  | Exited 0 => true
  | _ => false
  end.

(** A [run] that lets the script go on. *)
Definition launched (r : ProcResult) : bool :=
  match r with
  | Exited _ => true
  | LaunchFailed => false
  end.

(** The answers [do_if] takes for a yes. *)
Definition accepts (answer : string) : bool :=
  Str.eqb (Str.lower answer) "" || Str.eqb (Str.lower answer) "y".

(** Events that are not the matcher's: neither the usage text nor a
    question whether to proceed. *)
Definition no_matcher_output (e : Event) : bool :=
  match e with
  | EvPrint t => negb (Str.eqb t usage_str)
  | EvPrintStyle t => negb (String.prefix "Proceed with '" t)
  | _ => true
  end.

(** Dispatch that does not go through the matcher. *)
Definition direct_dispatch : Policy :=
  mkPolicy no_matcher_output true (fun _ => true) false.

(** A run that asks the user nothing. *)
Definition unattended : Policy :=
  mkPolicy (fun e => match e with EvInput _ => false | _ => true end)
           false (fun _ => true) true.

(** A run that writes no environment variable but the script's three. *)
Definition script_environment : Policy :=
  mkPolicy (fun _ => true) true
           (key_in ["CC"; "CXX"; "EUGENE_BUILD_TESTS"]) true.

(** A run that does not write the test-build flag. *)
Definition no_test_flag : Policy :=
  mkPolicy (fun _ => true) true (key_in ["CC"; "CXX"]) true.

(** A run that does not announce an upload. *)
Definition no_upload : Policy :=
  mkPolicy (fun e => match e with
                     | EvPrint t => negb (Str.eqb t "Uploading docs")
                     | _ => true
                     end)
           true (fun _ => true) true.

(** Where an unrecognized command leaves the process once the matcher has
    asked about [c] and read an answer: the gate closed, the answer
    consumed, and on the console the usage text, a blank line, the
    question and the empty line that follows the answer. *)
Definition after_question (c : string) (rest : list string) (st : State)
    : State :=
  mkState false (environ st) rest
          (trace st ++ [EvPrint usage_str; EvPrint nl;
                        EvPrintStyle (proceed_prompt c); EvInput "";
                        EvPrint ""]).

(** The history at the moment a configuration attempt reaches its [try]:
    the two exports and the announcement are behind it. *)
Definition attempt_start (st : State) (compiler_matrix : string * string)
    : list Event :=
  trace st ++ [EvSetEnv "CC" (fst compiler_matrix);
               EvSetEnv "CXX" (snd compiler_matrix);
               EvPrintStyle "Trying to configure project ..."].

(** The test run of line 145. *)
Definition ctest_run : Event :=
  EvRun (Argv (Str.split
    "ctest --rerun-failed --output-on-failure --test-dir build/")).

(** ** How a computation may end

    Besides returning: with an exception that [E] admits, or through
    [sys.exit] with a status that [X] admits. *)
Definition ends_well {A} (E : Exn -> bool) (X : Z -> bool) (o : Outcome A)
    : Prop :=
  match o with
  | Ret _ => True
  | Raise e => E e = true
  | SysExit c => X c = true
  end.

Definition fails_only {A} (E : Exn -> bool) (X : Z -> bool) (m : M A) : Prop :=
  forall st, ends_well E X (m st).1.

(** The exceptions a run can end with. *)
Definition escaping (e : Exn) : bool :=
  match e with
  | AssertionError _ | EOFError | OSError => true
  | _ => false
  end.

(** [E], and [OSError] besides. *)
Definition or_OSError (E : Exn -> bool) (e : Exn) : bool :=
  E e || match e with OSError => true | _ => false end.

(** The only status [parse] exits with. *)
Definition gave_up (c : Z) : bool := c =? -1.

(** * Properties *)

(** ** Running the monad *)

Lemma bind_Ret {A B} (m : M A) (k : A -> M B) (st st' : State) (a : A) :
  m st = (Ret a, st') -> bind m k st = k a st'.
Proof. intros H. unfold bind. now rewrite H. Qed.

Lemma bind_Raise {A B} (m : M A) (k : A -> M B) (st st' : State) (e : Exn) :
  m st = (Raise e, st') -> bind m k st = (Raise e, st').
Proof. intros H. unfold bind. now rewrite H. Qed.

Lemma bind_ext {A B} (m : M A) (k1 k2 : A -> M B) (st : State) :
  (forall a st', m st = (Ret a, st') -> k1 a st' = k2 a st') ->
  bind m k1 st = bind m k2 st.
Proof.
  intros H. unfold bind.
  destruct (m st) as [[a | e | c] st']; [now apply H | reflexivity | reflexivity].
Qed.

Lemma emitted_app (st st' : State) (evs : list Event) :
  trace st' = trace st ++ evs -> emitted st st' = evs.
Proof. intros H. unfold emitted. rewrite H. apply drop_app_length. Qed.

Lemma emitted_same (st : State) : emitted st st = [].
Proof. apply emitted_app. now rewrite app_nil_r. Qed.

(** Splits on how the next child process ends. *)
Ltac case_spawn :=
  match goal with
  | |- context [match spawn ?w ?h ?c with _ => _ end] =>
      destruct (spawn w h c) as [[| ? | ?] |]
  end.

(** ** The dispatcher's entry *)

Lemma parse_unfold (w : World) :
  parse w = parse_body w (parse_depth w 999).
Proof. reflexivity. Qed.

Lemma parse_depth_S (w : World) (n : nat) :
  parse_depth w (S n) = parse_body w (parse_depth w n).
Proof. reflexivity. Qed.

Lemma parse_body_extra_args w self cmd_line cmd cmd_args cmd_argc st :
  1 < cmd_argc ->
  parse_body w self cmd_line cmd cmd_args cmd_argc st
  = (Raise (AssertionError ""), st).
Proof.
  intros H. unfold parse_body.
  apply bind_Raise. unfold assert_.
  destruct (Z.leb_spec cmd_argc 1) as [Hle|_]; [lia | reflexivity].
Qed.

(** C3: with more than one sub-argument the dispatcher stops on the
    assertion of line 179, and the state it leaves is the one it was given:
    no child process was started, [os.environ] was not written, nothing was
    printed or read. *)
Theorem parse_rejects_extra_args
    (w : World) (cmd_line : list string) (cmd : string)
    (cmd_args : list string) (cmd_argc : Z) (st : State) :
  1 < cmd_argc ->
  parse w cmd_line cmd cmd_args cmd_argc st = (Raise (AssertionError ""), st)
  /\ emitted st (parse w cmd_line cmd cmd_args cmd_argc st).2 = []
  /\ environ (parse w cmd_line cmd cmd_args cmd_argc st).2 = environ st.
Proof.
  intros H. rewrite parse_unfold.
  rewrite (parse_body_extra_args _ _ _ _ _ _ _ H). simpl.
  split; [reflexivity | split; [apply emitted_same | reflexivity]].
Qed.

(** C9: [config] and [lint] accept no sub-argument.  Given exactly one,
    which line 179 lets through, they stop on their own assertion (lines
    189 and 203) with the state untouched, so before any child process. *)
Theorem config_and_lint_reject_a_sub_argument
    (w : World) (cmd_line : list string) (sub : string) (st : State) :
  parse w cmd_line "config" [sub] 1 st = (Raise (AssertionError ""), st)
  /\ parse w cmd_line "lint" [sub] 1 st = (Raise (AssertionError ""), st)
  /\ emitted st (parse w cmd_line "config" [sub] 1 st).2 = []
  /\ emitted st (parse w cmd_line "lint" [sub] 1 st).2 = [].
Proof.
  assert (Hc : parse w cmd_line "config" [sub] 1 st
               = (Raise (AssertionError ""), st)) by reflexivity.
  assert (Hl : parse w cmd_line "lint" [sub] 1 st
               = (Raise (AssertionError ""), st)) by reflexivity.
  rewrite Hc, Hl. simpl.
  split; [reflexivity |]. split; [reflexivity |].
  split; apply emitted_same.
Qed.

(** ** [clean] and [mrproper] *)

Lemma sole_arg_has_one (sub a : string) (st : State) :
  sole_arg_has sub [a] 1 st = (Ret (Str.contains sub a), st).
Proof. reflexivity. Qed.

Lemma parse_clean (w : World) cmd_line cmd cmd_args cmd_argc st :
  cmd = "clean" \/ cmd = "mrproper" ->
  cmd_argc <= 1 ->
  parse w cmd_line cmd cmd_args cmd_argc st
  = bind (clean_forced cmd_args cmd_argc)
      (fun forced => bind (clean_kind cmd_args cmd_argc)
         (fun kind => do_clean w (kind && negb forced))) st.
Proof.
  intros Hcmd Hle. rewrite parse_unfold. unfold parse_body.
  assert (Ha : assert_ (cmd_argc <=? 1) "" st = (Ret tt, st)).
  { unfold assert_. destruct (Z.leb_spec cmd_argc 1); [reflexivity | lia]. }
  rewrite (bind_Ret _ _ _ _ _ Ha).
  destruct Hcmd as [-> | ->]; reflexivity.
Qed.

(** Asked not to confirm, the clean action reads nothing from the user. *)
Lemma do_clean_unprompted (w : World) (st : State) :
  stdin (do_clean w false st).2 = stdin st
  /\ forall prompt, EvInput prompt ∉ emitted st (do_clean w false st).2.
Proof.
  unfold do_clean, do_if, bind, sp_run, print_style, emit.
  cbn [log trace fst snd].
  repeat case_spawn; cbn [log trace fst snd stdin]; (split; [reflexivity |]);
    intros prompt; (erewrite emitted_app;
                    [| cbn [log trace]; rewrite <- ?app_assoc; reflexivity]);
    cbn [app]; rewrite ?elem_of_cons, elem_of_nil; intros H;
    repeat destruct H as [H | H]; try discriminate H; exact H.
Qed.

(** C5: for [clean] and [mrproper], [forced] holds exactly when the
    sub-argument contains "force" or there is none, [kind] exactly when the
    sub-argument contains "kind", the clean action is asked to confirm
    exactly when [kind and not forced], and a bare [clean] does what
    [clean force] does: neither asks. *)
Theorem clean_flags
    (w : World) (cmd_line cmd_line' : list string) (cmd sub : string)
    (st : State) :
  cmd = "clean" \/ cmd = "mrproper" ->
  clean_forced [] 0 st = (Ret true, st)
  /\ clean_forced [sub] 1 st = (Ret (Str.contains "force" sub), st)
  /\ clean_kind [] 0 st = (Ret false, st)
  /\ clean_kind [sub] 1 st = (Ret (Str.contains "kind" sub), st)
  /\ parse w cmd_line cmd [sub] 1 st
     = do_clean w (Str.contains "kind" sub && negb (Str.contains "force" sub)) st
  /\ parse w cmd_line cmd [] 0 st = do_clean w false st
  /\ parse w cmd_line cmd [] 0 st = parse w cmd_line' cmd ["force"] 1 st
  /\ (forall prompt,
        EvInput prompt ∉ emitted st (parse w cmd_line cmd [] 0 st).2).
Proof.
  intros Hcmd.
  assert (Hf0 : clean_forced [] 0 st = (Ret true, st)) by reflexivity.
  assert (Hf1 : forall a, clean_forced [a] 1 st
                          = (Ret (Str.contains "force" a), st)).
  { intros a. unfold clean_forced.
    rewrite (bind_Ret _ _ _ _ _ (sole_arg_has_one "force" a st)).
    unfold ret. now rewrite orb_false_r. }
  assert (Hk0 : clean_kind [] 0 st = (Ret false, st)) by reflexivity.
  assert (Hk1 : forall a, clean_kind [a] 1 st
                          = (Ret (Str.contains "kind" a), st)) by reflexivity.
  assert (H1 : forall l a, parse w l cmd [a] 1 st
     = do_clean w (Str.contains "kind" a && negb (Str.contains "force" a)) st).
  { intros l a. rewrite (parse_clean w l cmd [a] 1 st Hcmd) by lia.
    rewrite (bind_Ret _ _ _ _ _ (Hf1 a)).
    now rewrite (bind_Ret _ _ _ _ _ (Hk1 a)). }
  assert (H0 : parse w cmd_line cmd [] 0 st = do_clean w false st).
  { rewrite (parse_clean w cmd_line cmd [] 0 st Hcmd) by lia.
    rewrite (bind_Ret _ _ _ _ _ Hf0).
    now rewrite (bind_Ret _ _ _ _ _ Hk0). }
  split; [exact Hf0 |]. split; [apply Hf1 |].
  split; [exact Hk0 |]. split; [apply Hk1 |].
  split; [apply H1 |]. split; [exact H0 |].
  split; [rewrite H0, H1; reflexivity |].
  rewrite H0. apply do_clean_unprompted.
Qed.

(** ** The optional runner *)

Lemma lower_empty (s : string) : Str.lower s = "" <-> s = "".
Proof.
  split; intros H; [| now subst].
  destruct s; [reflexivity | discriminate].
Qed.

Lemma lower_char_y (c : ascii) :
  Str.lower_char c = "y"%char <-> c = "y"%char \/ c = "Y"%char.
Proof.
  split.
  - destruct c as [[] [] [] [] [] [] [] []]; vm_compute; intros H;
      first [discriminate H | now left | now right].
  - intros [-> | ->]; reflexivity.
Qed.

(** [.lower() == 'y'] holds of "y" and "Y" and of nothing else. *)
Lemma lower_y (s : string) : Str.lower s = "y" <-> s = "y" \/ s = "Y".
Proof.
  split.
  - destruct s as [| c s']; [discriminate |]. simpl. intros H.
    injection H as Hc Hs. apply (proj1 (lower_empty s')) in Hs. subst s'.
    apply (proj1 (lower_char_y c)) in Hc. destruct Hc as [-> | ->]; auto.
  - intros [-> | ->]; reflexivity.
Qed.

Lemma eqb_true_iff (a b : string) : Str.eqb a b = true <-> a = b.
Proof. apply String.eqb_eq. Qed.

Lemma eqb_false_iff (a b : string) : Str.eqb a b = false <-> a <> b.
Proof. apply String.eqb_neq. Qed.

Lemma sp_run_same_launches (w w' : World) (c : Cmd) (st : State) :
  same_launches w w' -> sp_run w' c st = sp_run w c st.
Proof.
  intros [Hs _]. unfold sp_run. specialize (Hs (trace st) c).
  destruct (spawn w (trace st) c) eqn:E, (spawn w' (trace st) c) eqn:E';
    try reflexivity.
  - destruct Hs as [_ Hs]. specialize (Hs eq_refl). discriminate.
  - destruct Hs as [Hs _]. specialize (Hs eq_refl). discriminate.
Qed.

Lemma sp_run_emits (w : World) (c : Cmd) (st : State) :
  trace (sp_run w c st).2 = trace st ++ [EvRun c].
Proof. unfold sp_run. destruct (spawn w (trace st) c); reflexivity. Qed.

Lemma do_if_unprompted (w : World) (cmd msg : string) (st : State) :
  do_if w cmd msg false st = sp_run w (Argv (Str.split cmd)) st.
Proof. reflexivity. Qed.

Lemma do_if_prompted (w : World) (cmd msg answer : string)
    (rest : list string) (st : State) :
  stdin st = answer :: rest ->
  do_if w cmd msg true st
  = if negb (Str.eqb (Str.lower answer) "") && negb (Str.eqb (Str.lower answer) "y")
    then (Ret tt, set_stdin rest (log (EvInput (msg +:+ " Ok? ")) st))
    else sp_run w (Argv (Str.split cmd))
           (set_stdin rest (log (EvInput (msg +:+ " Ok? ")) st)).
Proof.
  intros Hin. unfold do_if, bind, input. simpl. rewrite Hin.
  destruct (negb _ && negb _); reflexivity.
Qed.

(** C7: when it prompts, [do_if] starts the command exactly when the line
    it reads is empty, "y" or "Y"; when it does not prompt it always starts
    it; and what [do_if] returns and leaves behind does not depend on the
    exit status of the command: two worlds that differ only in exit
    statuses give the same result. *)
Theorem do_if_runs_unless_declined
    (w : World) (cmd msg : string) (st : State) :
  (forall answer rest, stdin st = answer :: rest ->
     (EvRun (Argv (Str.split cmd)) ∈ emitted st (do_if w cmd msg true st).2
      <-> answer = "" \/ answer = "y" \/ answer = "Y"))
  /\ EvRun (Argv (Str.split cmd)) ∈ emitted st (do_if w cmd msg false st).2
  /\ (forall w' qprompt, same_launches w w' ->
        do_if w' cmd msg qprompt st = do_if w cmd msg qprompt st).
Proof.
  split; [| split].
  - intros answer rest Hin. rewrite (do_if_prompted w cmd msg answer rest st Hin).
    rewrite <- (lower_empty answer), <- (lower_y answer).
    rewrite <- !eqb_true_iff.
    destruct (Str.eqb (Str.lower answer) "") eqn:E1,
             (Str.eqb (Str.lower answer) "y") eqn:E2; simpl.
    all: try (split; [intros _; auto |]; intros _;
              rewrite (emitted_app _ _ [EvInput (msg +:+ " Ok? ");
                                        EvRun (Argv (Str.split cmd))]);
              [apply list_elem_of_further, list_elem_of_here |];
              rewrite sp_run_emits; simpl; now rewrite <- app_assoc).
    split; [| intros [H | H]; discriminate H].
    erewrite emitted_app by reflexivity.
    intros H. apply list_elem_of_singleton in H. discriminate H.
  - rewrite do_if_unprompted. erewrite emitted_app by apply sp_run_emits.
    apply list_elem_of_here.
  - intros w' qprompt Hw. destruct qprompt.
    + unfold do_if, bind. destruct (input _ st) as [[out | e | c] st1]; try reflexivity.
      destruct (negb _ && negb _); [reflexivity |].
      now apply sp_run_same_launches.
    + rewrite !do_if_unprompted. now apply sp_run_same_launches.
Qed.

(** ** The fuzzy matcher *)

Lemma within_required_iff (arg cand : string) :
  within_required (lev arg cand) (Str.len arg) = true <-> qualifies arg cand.
Proof. unfold within_required, qualifies. apply Nat.leb_le. Qed.

Lemma string_length_app (a b : string) :
  String.length (a +:+ b) = (String.length a + String.length b)%nat.
Proof. induction a as [| c a IH]; simpl; [reflexivity | now rewrite IH]. Qed.

Lemma string_app_inj_l (a b s : string) : a +:+ s = b +:+ s -> a = b.
Proof.
  revert b. induction a as [| c a IH]; intros [| d b] H.
  - reflexivity.
  - apply (f_equal String.length) in H.
    rewrite !string_length_app in H. simpl in H. lia.
  - apply (f_equal String.length) in H.
    rewrite !string_length_app in H. simpl in H. lia.
  - change (String c (a +:+ s) = String d (b +:+ s)) in H.
    injection H as -> H. f_equal. now apply IH.
Qed.

Lemma proceed_prompt_inj (a b : string) :
  proceed_prompt a = proceed_prompt b -> a = b.
Proof.
  unfold proceed_prompt. intros H.
  apply (String.app_inj "Proceed with '") in H.
  now apply string_app_inj_l in H.
Qed.

(** The first qualifying name of a list is unique. *)
Lemma first_qualifying_unique (arg : string) (names : list string)
    (c1 c2 : string) :
  first_qualifying arg names c1 -> first_qualifying arg names c2 -> c1 = c2.
Proof.
  intros (pre1 & post1 & E1 & Q1 & N1) (pre2 & post2 & E2 & Q2 & N2).
  subst names. revert pre2 E2 N2.
  induction pre1 as [| x pre1 IH]; intros [| y pre2] E2 N2; simpl in E2.
  - now injection E2.
  - injection E2 as -> _. apply Forall_cons in N2. now destruct N2.
  - injection E2 as -> _. apply Forall_cons in N1. now destruct N1.
  - injection E2 as -> E2. apply Forall_cons in N1, N2.
    apply (IH (proj2 N1) pre2 E2 (proj2 N2)).
Qed.

(** The loop passes over the names that do not qualify and asks about the
    first one that does; with none, it falls out of the loop. *)
Lemma autocomplete_scan_spec (arg : string) (names : list string) (st : State) :
  (Forall (fun c => ~ qualifies arg c) names
   /\ autocomplete_scan arg names st = (Ret PyNone, log (EvPrint "") st))
  \/ (exists c, first_qualifying arg names c
                /\ autocomplete_scan arg names st = ask c st).
Proof.
  induction names as [| x names IH]; simpl.
  - left. split; [constructor | reflexivity].
  - destruct (within_required (lev arg x) (Str.len arg)) eqn:E.
    + right. exists x. split; [| reflexivity].
      exists [], names. split; [reflexivity |]. split; [| constructor].
      now apply within_required_iff.
    + assert (Hx : ~ qualifies arg x).
      { intros Q. apply within_required_iff in Q. congruence. }
      destruct IH as [[Hall Hscan] | (c & (pre & post & -> & Q & N) & Hscan)].
      * left. split; [now constructor | exact Hscan].
      * right. exists c. split; [| exact Hscan].
        exists (x :: pre), post. split; [reflexivity |].
        split; [exact Q | now constructor].
Qed.

(** What asking about [c] leaves behind: the prompt, the request for a
    line, and, when a line came, the empty line that is printed whatever
    the answer. *)
Lemma ask_spec (c : string) (st : State) :
  exists tail,
    trace (ask c st).2
    = trace st ++ EvPrintStyle (proceed_prompt c) :: EvInput "" :: tail
    /\ (tail = [] \/ tail = [EvPrint ""])
    /\ ((ask c st).1 = Ret PyNone \/ (ask c st).1 = Ret (PyStr c)
        \/ (ask c st).1 = Raise EOFError)
    /\ retry_avail_ (ask c st).2 = retry_avail_ st.
Proof.
  unfold ask, bind, print_style, print, emit, input. simpl.
  destruct (stdin st) as [| line rest]; simpl.
  - exists []. rewrite <- app_assoc. simpl. auto 6.
  - destruct (Str.eqb (Str.lower line) "y"); simpl;
      exists [EvPrint ""]; rewrite <- !app_assoc; simpl; auto 6.
Qed.

Lemma autocomplete_open (arg : string) (st : State) :
  retry_avail_ st = true ->
  autocomplete arg st = autocomplete_scan arg avail_args (set_retry false st).
Proof. intros H. unfold autocomplete. now rewrite H. Qed.

Lemma autocomplete_closed (arg : string) (st : State) :
  retry_avail_ st = false -> autocomplete arg st = (Ret PyFalse, st).
Proof. intros H. unfold autocomplete. now rewrite H. Qed.

Lemma offered_ask_tail (c cand : string) (tail : list Event) :
  tail = [] \/ tail = [EvPrint ""] ->
  offered (EvPrintStyle (proceed_prompt c) :: EvInput "" :: tail) cand
  <-> cand = c.
Proof.
  intros Ht. unfold offered. split.
  - intros H. apply elem_of_cons in H as [H | H].
    + apply proceed_prompt_inj. congruence.
    + apply elem_of_cons in H as [H | H]; [discriminate H |].
      destruct Ht as [-> | ->].
      * now apply not_elem_of_nil in H.
      * apply list_elem_of_singleton in H. discriminate H.
  - intros ->. apply list_elem_of_here.
Qed.

(** The matcher with the gate open: either no name qualifies and it only
    prints the empty line, or it asks about the first name that does. *)
Lemma autocomplete_open_cases (arg : string) (st : State) :
  retry_avail_ st = true ->
  (Forall (fun c => ~ qualifies arg c) avail_args
   /\ (autocomplete arg st).1 = Ret PyNone
   /\ emitted st (autocomplete arg st).2 = [EvPrint ""])
  \/ (exists c tail,
        first_qualifying arg avail_args c
        /\ emitted st (autocomplete arg st).2
           = EvPrintStyle (proceed_prompt c) :: EvInput "" :: tail
        /\ (tail = [] \/ tail = [EvPrint ""])
        /\ ((autocomplete arg st).1 = Ret PyNone
            \/ (autocomplete arg st).1 = Ret (PyStr c)
            \/ (autocomplete arg st).1 = Raise EOFError)).
Proof.
  intros Hopen. rewrite (autocomplete_open arg st Hopen).
  destruct (autocomplete_scan_spec arg avail_args (set_retry false st))
    as [[Hall Hscan] | (c & Hfirst & Hscan)]; rewrite Hscan.
  - left. split; [exact Hall |]. split; [reflexivity |].
    now apply emitted_app.
  - right.
    destruct (ask_spec c (set_retry false st)) as (tail & Htr & Htail & Hres & _).
    exists c, tail. split; [exact Hfirst |].
    split; [now apply emitted_app |]. split; assumption.
Qed.

(** C1: with the gate open, the matcher offers a name exactly when that
    name is the first one, in registry order, whose edit distance to the
    token is at most half the token's length (a distance equal to the
    threshold counts); it offers at most one name whatever is answered, and
    a name it returns is the one it offered. *)
Theorem autocomplete_offers_first_within_half
    (arg : string) (st : State) :
  retry_avail_ st = true ->
  (forall cand,
      offered (emitted st (autocomplete arg st).2) cand
      <-> first_qualifying arg (map field AvailableParams) cand)
  /\ (forall c1 c2,
         offered (emitted st (autocomplete arg st).2) c1 ->
         offered (emitted st (autocomplete arg st).2) c2 -> c1 = c2)
  /\ (forall cand,
         (autocomplete arg st).1 = Ret (PyStr cand) ->
         offered (emitted st (autocomplete arg st).2) cand).
Proof.
  intros Hopen. fold avail_args.
  destruct (autocomplete_open_cases arg st Hopen)
    as [(Hall & Hres & Hev) | (c & tail & Hfirst & Hev & Htail & Hres)];
    rewrite Hev.
  - (* no name qualifies: nothing is offered *)
    assert (Hno : forall cand, ~ offered [EvPrint ""] cand).
    { intros cand H. apply list_elem_of_singleton in H. discriminate H. }
    split; [| split].
    + intros cand. split; [intros H; now apply Hno in H |].
      intros (pre & post & E & Q & _). exfalso.
      rewrite Forall_forall in Hall. apply (Hall cand); [| exact Q].
      rewrite E. apply elem_of_app. right. apply list_elem_of_here.
    + intros c1 c2 H. now apply Hno in H.
    + intros cand H. rewrite Hres in H. discriminate H.
  - (* [c] is the first that qualifies: it alone is offered *)
    split; [| split].
    + intros cand. rewrite (offered_ask_tail c cand tail Htail). split.
      * now intros ->.
      * intros H. apply (first_qualifying_unique arg avail_args); assumption.
    + intros c1 c2 H1 H2.
      apply (offered_ask_tail c c1 tail Htail) in H1.
      apply (offered_ask_tail c c2 tail Htail) in H2. congruence.
    + intros cand H. apply (offered_ask_tail c cand tail Htail).
      destruct Hres as [Hr | [Hr | Hr]]; rewrite Hr in H; congruence.
Qed.

Lemma autocomplete_names_registered (arg : string) (st : State) (s : string) :
  (autocomplete arg st).1 = Ret (PyStr s)
  \/ offered (emitted st (autocomplete arg st).2) s ->
  s ∈ avail_args.
Proof.
  intros H. destruct (retry_avail_ st) eqn:Hgate.
  - destruct (autocomplete_open_cases arg st Hgate)
      as [(_ & Hres & Hev) | (c & tail & Hfirst & Hev & Htail & Hres)].
    + rewrite Hres, Hev in H. destruct H as [H | H]; [discriminate H |].
      apply list_elem_of_singleton in H. discriminate H.
    + assert (s = c) as ->.
      { destruct H as [H | H].
        - destruct Hres as [Hr | [Hr | Hr]]; rewrite Hr in H; congruence.
        - rewrite Hev in H. now apply (offered_ask_tail c s tail Htail). }
      destruct Hfirst as (pre & post & E & _ & _).
      rewrite E. apply elem_of_app. right. apply list_elem_of_here.
  - rewrite (autocomplete_closed arg st Hgate) in H. simpl in H.
    destruct H as [H | H]; [discriminate H |].
    rewrite emitted_same in H. now apply not_elem_of_nil in H.
Qed.

(** C8: a name the matcher returns, or so much as offers, is one of
    [build], [test], [lint], [doc], [clean], the registry's contents; it is
    never [config], [mrproper] or [version], which the dispatcher knows but
    the registry does not list. *)
Theorem suggestions_come_from_the_registry
    (arg : string) (st : State) (s : string) :
  (autocomplete arg st).1 = Ret (PyStr s)
  \/ offered (emitted st (autocomplete arg st).2) s ->
  map field AvailableParams = ["build"; "test"; "lint"; "doc"; "clean"]
  /\ s ∈ ["build"; "test"; "lint"; "doc"; "clean"]
  /\ s <> "config" /\ s <> "mrproper" /\ s <> "version".
Proof.
  intros H. apply autocomplete_names_registered in H.
  change avail_args with ["build"; "test"; "lint"; "doc"; "clean"] in H.
  split; [reflexivity |]. split; [exact H |].
  repeat split; intros ->; revert H; clear;
    rewrite !elem_of_cons, elem_of_nil; intros H;
    repeat destruct H as [H | H]; try discriminate H; exact H.
Qed.

(** ** The retry gate *)

Create HintDb gate.

Lemma kgc_ret {A} (a : A) : keeps_gate_closed (ret a).
Proof. intros st H. exact H. Qed.

Lemma kgc_raise {A} (e : Exn) : keeps_gate_closed (@raise A e).
Proof. intros st H. exact H. Qed.

Lemma kgc_sys_exit {A} (c : Z) : keeps_gate_closed (@sys_exit A c).
Proof. intros st H. exact H. Qed.

Lemma kgc_bind {A B} (m : M A) (k : A -> M B) :
  keeps_gate_closed m -> (forall a, keeps_gate_closed (k a)) ->
  keeps_gate_closed (bind m k).
Proof.
  intros Hm Hk st H. unfold bind. specialize (Hm st H).
  destruct (m st) as [[a | e | c] st']; simpl in *; [| exact Hm | exact Hm].
  now apply Hk.
Qed.

Lemma kgc_try_except {A} (body handler : M A) :
  keeps_gate_closed body -> keeps_gate_closed handler ->
  keeps_gate_closed (try_except body handler).
Proof.
  intros Hb Hh st H. unfold try_except. specialize (Hb st H).
  destruct (body st) as [[a | e | c] st']; simpl in *;
    [exact Hb | now apply Hh | now apply Hh].
Qed.

Lemma kgc_try_except_OSError {A} (body handler : M A) :
  keeps_gate_closed body -> keeps_gate_closed handler ->
  keeps_gate_closed (try_except_OSError body handler).
Proof.
  intros Hb Hh st H. unfold try_except_OSError. specialize (Hb st H).
  destruct (body st) as [[a | [] | c] st']; simpl in *;
    first [exact Hb | now apply Hh].
Qed.

Lemma kgc_assert (cond : bool) (msg : string) :
  keeps_gate_closed (assert_ cond msg).
Proof. destruct cond; intros st H; exact H. Qed.

Lemma kgc_emit (e : Event) : keeps_gate_closed (emit e).
Proof. intros st H. exact H. Qed.

Lemma kgc_print (text : string) : keeps_gate_closed (print text).
Proof. apply kgc_emit. Qed.

Lemma kgc_print_style (text : string) : keeps_gate_closed (print_style text).
Proof. apply kgc_emit. Qed.

Lemma kgc_input (prompt : string) : keeps_gate_closed (input prompt).
Proof. intros st H. unfold input. simpl. destruct (stdin st); exact H. Qed.

Lemma kgc_setenv (k v : string) : keeps_gate_closed (setenv k v).
Proof. intros st H. exact H. Qed.

Lemma kgc_os_mkdir (w : World) (path : string) :
  keeps_gate_closed (os_mkdir w path).
Proof. intros st H. unfold os_mkdir. destruct (mkdir_ok _ _ _); exact H. Qed.

Lemma kgc_sp_run (w : World) (c : Cmd) : keeps_gate_closed (sp_run w c).
Proof. intros st H. unfold sp_run. destruct (spawn _ _ _); exact H. Qed.

Lemma kgc_sp_check_call (w : World) (c : Cmd) :
  keeps_gate_closed (sp_check_call w c).
Proof.
  intros st H. unfold sp_check_call.
  destruct (spawn _ _ _) as [[| p | p] |]; exact H.
Qed.

Lemma kgc_autocomplete (arg : string) : keeps_gate_closed (autocomplete arg).
Proof. intros st H. now rewrite (autocomplete_closed arg st H). Qed.

#[local] Hint Resolve kgc_ret kgc_raise kgc_sys_exit kgc_assert kgc_emit
  kgc_print kgc_print_style kgc_input kgc_setenv kgc_os_mkdir kgc_sp_run
  kgc_sp_check_call kgc_autocomplete : gate.

(** Walks through a computation built from the pieces above. *)
Ltac gate_step :=
  lazymatch goal with
  | |- keeps_gate_closed (bind _ _) => apply kgc_bind; [| intros ?]
  | |- keeps_gate_closed (try_except _ _) => apply kgc_try_except
  | |- keeps_gate_closed (try_except_OSError _ _) => apply kgc_try_except_OSError
  | |- keeps_gate_closed (if ?b then _ else _) => destruct b
  | |- keeps_gate_closed (match ?x with _ => _ end) => destruct x
  | |- keeps_gate_closed _ => solve [auto with gate]
  end.

Ltac gate_walk := repeat gate_step.

Lemma kgc_do_if (w : World) (cmd msg : string) (qprompt : bool) :
  keeps_gate_closed (do_if w cmd msg qprompt).
Proof. unfold do_if. gate_walk. Qed.

Lemma kgc_do_config_cmd (w : World) (cm : string * string) :
  keeps_gate_closed (do_config_cmd w cm).
Proof. unfold do_config_cmd. gate_walk. Qed.

#[local] Hint Resolve kgc_do_if kgc_do_config_cmd : gate.

Lemma kgc_do_config (w : World) : keeps_gate_closed (do_config w).
Proof. unfold do_config. gate_walk. Qed.

#[local] Hint Resolve kgc_do_config : gate.

Lemma kgc_do_build (w : World) (test doc : bool) :
  keeps_gate_closed (do_build w test doc).
Proof. unfold do_build. gate_walk. Qed.

Lemma kgc_do_run_test (w : World) : keeps_gate_closed (do_run_test w).
Proof. unfold do_run_test. gate_walk. Qed.

Lemma kgc_do_lint (w : World) : keeps_gate_closed (do_lint w).
Proof. unfold do_lint. gate_walk. Qed.

Lemma kgc_do_clean (w : World) (is_kind : bool) :
  keeps_gate_closed (do_clean w is_kind).
Proof. unfold do_clean. gate_walk. Qed.

Lemma kgc_sole_arg_has (sub : string) (cmd_args : list string) (cmd_argc : Z) :
  keeps_gate_closed (sole_arg_has sub cmd_args cmd_argc).
Proof. unfold sole_arg_has, first_arg. gate_walk. Qed.

#[local] Hint Resolve kgc_do_build kgc_do_run_test kgc_do_lint kgc_do_clean
  kgc_sole_arg_has : gate.

Lemma kgc_parse_body (w : World) self cmd_line cmd cmd_args cmd_argc :
  (forall l c a n, keeps_gate_closed (self l c a n)) ->
  keeps_gate_closed (parse_body w self cmd_line cmd cmd_args cmd_argc).
Proof.
  intros Hself.
  unfold parse_body, clean_forced, clean_kind, usage, do_updoc, first_arg.
  gate_walk.
Qed.

Lemma kgc_parse_depth (w : World) (n : nat) cmd_line cmd cmd_args cmd_argc :
  keeps_gate_closed (parse_depth w n cmd_line cmd cmd_args cmd_argc).
Proof.
  revert cmd_line cmd cmd_args cmd_argc.
  induction n as [| n IH]; intros; simpl; [apply kgc_raise |].
  now apply kgc_parse_body.
Qed.

Lemma kgc_main (w : World) (argv : list string) :
  keeps_gate_closed (main w argv).
Proof.
  unfold main, usage. gate_walk; apply kgc_parse_depth.
Qed.

Lemma kgc_autocomplete_scan (arg : string) (names : list string) :
  keeps_gate_closed (autocomplete_scan arg names).
Proof. induction names as [| x names IH]; simpl; gate_walk. Qed.

(** However it ends, a call of the matcher leaves the gate closed. *)
Lemma autocomplete_closes_gate (arg : string) (st : State) :
  retry_avail_ (autocomplete arg st).2 = false.
Proof.
  destruct (retry_avail_ st) eqn:Hgate.
  - rewrite (autocomplete_open arg st Hgate).
    now apply kgc_autocomplete_scan.
  - now apply kgc_autocomplete.
Qed.

Lemma not_dispatchable (cmd : string) :
  cmd ∉ dispatchable ->
  Str.eqb cmd "build" = false /\ Str.eqb cmd "config" = false
  /\ Str.eqb cmd "test" = false /\ Str.eqb cmd "clean" = false
  /\ Str.eqb cmd "mrproper" = false /\ Str.eqb cmd "lint" = false
  /\ Str.eqb cmd "doc" = false /\ Str.eqb cmd "version" = false.
Proof.
  intros H. unfold dispatchable in H.
  repeat rewrite not_elem_of_cons in H.
  rewrite !eqb_false_iff. tauto.
Qed.

(** On a name it has no branch for, the dispatcher prints the usage text
    and hands the name to the matcher. *)
Lemma parse_body_unrecognized (w : World) self cmd_line cmd cmd_args cmd_argc st :
  cmd ∉ dispatchable -> cmd_argc <= 1 ->
  parse_body w self cmd_line cmd cmd_args cmd_argc st
  = bind (autocomplete cmd)
      (fun actual_cmd =>
         match actual_cmd with
         | PyStr s => if truthy actual_cmd
                      then self cmd_line s cmd_args cmd_argc else ret tt
         | _ => ret tt
         end)
      (log (EvPrint nl) (log (EvPrint usage_str) st)).
Proof.
  intros Hcmd Hle. unfold parse_body.
  destruct (not_dispatchable cmd Hcmd)
    as (E1 & E2 & E3 & E4 & E5 & E6 & E7 & E8).
  rewrite E1, E2, E3, E4, E5, E6, E7, E8. simpl.
  assert (Ha : assert_ (cmd_argc <=? 1) "" st = (Ret tt, st)).
  { unfold assert_. destruct (Z.leb_spec cmd_argc 1); [reflexivity | lia]. }
  rewrite (bind_Ret _ _ _ _ _ Ha). reflexivity.
Qed.

(** C2: every call of the matcher leaves the gate closed; a call that
    finds it closed returns at once with [False], the state as it was, so
    no name was scanned or offered; nothing the script does reopens it; and
    hence the dispatcher, reached with the gate closed and a name it does
    not know, prints the usage text and returns, with no suggestion. *)
Theorem retry_gate_allows_one_attempt (arg : string) (st : State) :
  retry_avail_ (autocomplete arg st).2 = false
  /\ (retry_avail_ st = false ->
      autocomplete arg st = (Ret PyFalse, st)
      /\ emitted st (autocomplete arg st).2 = [])
  /\ (forall w argv, keeps_gate_closed (main w argv))
  /\ (forall w cmd_line cmd cmd_args cmd_argc,
        keeps_gate_closed (parse w cmd_line cmd cmd_args cmd_argc))
  /\ (forall w cmd_line cmd_args cmd_argc,
        retry_avail_ st = false -> arg ∉ dispatchable -> cmd_argc <= 1 ->
        parse w cmd_line arg cmd_args cmd_argc st
        = (Ret tt, log (EvPrint nl) (log (EvPrint usage_str) st))).
Proof.
  split; [apply autocomplete_closes_gate |].
  split.
  { intros H. rewrite (autocomplete_closed arg st H).
    split; [reflexivity | apply emitted_same]. }
  split; [intros; apply kgc_main |].
  split; [intros; apply kgc_parse_depth |].
  intros w cmd_line cmd_args cmd_argc Hgate Hcmd Hle.
  rewrite parse_unfold.
  rewrite (parse_body_unrecognized w _ cmd_line arg cmd_args cmd_argc st Hcmd Hle).
  assert (Hac : autocomplete arg (log (EvPrint nl) (log (EvPrint usage_str) st))
                = (Ret PyFalse, log (EvPrint nl) (log (EvPrint usage_str) st)))
    by (apply autocomplete_closed; exact Hgate).
  rewrite (bind_Ret _ _ _ _ _ Hac). reflexivity.
Qed.

(** ** Configuration *)

Lemma do_config_cmd_attempt (w : World) (cm : string * string) (st : State) :
  exists b evs st',
    do_config_cmd w cm st = (Ret b, st')
    /\ trace st' = trace st ++ evs
    /\ values_set "CC" evs = [fst cm]
    /\ values_set "CXX" evs = [snd cm]
    /\ failed_attempts evs = (if b then 0 else 1)%nat
    /\ (b = true -> evs = successful_attempt cm)
    /\ values_set "EUGENE_BUILD_TESTS" evs = []
    /\ stdin st' = stdin st
    /\ retry_avail_ st' = retry_avail_ st.
Proof.
  unfold successful_attempt, do_config_cmd.
  generalize (Argv conan_install_command) (Argv (cmake_command cm)).
  intros conan cmake.
  unfold bind, try_except, setenv, print_style, emit, sp_check_call, sp_run, ret.
  cbn [log trace fst snd].
  repeat case_spawn.
  all: cbn [log trace fst snd retry_avail_ stdin set_environ environ].
  all: eexists _, _, _; split; [reflexivity |].
  all: cbn [log trace fst snd retry_avail_ stdin set_environ environ].
  all: split; [rewrite <- !app_assoc; simpl; reflexivity |].
  all: repeat split; try reflexivity; try discriminate.
Qed.

(** C10: a configuration attempt that succeeds has started exactly four
    child processes: the dependency installer under [check_call] and once
    more under [run], then the build-file generator under [check_call] and
    once more under [run]. *)
Theorem successful_attempt_runs_each_command_twice
    (w : World) (compiler_matrix : string * string) (st : State) :
  (do_config_cmd w compiler_matrix st).1 = Ret true ->
  emitted st (do_config_cmd w compiler_matrix st).2
  = successful_attempt compiler_matrix
  /\ spawns (emitted st (do_config_cmd w compiler_matrix st).2)
     = [ EvCheckCall (Argv conan_install_command);
         EvRun (Argv conan_install_command);
         EvCheckCall (Argv (cmake_command compiler_matrix));
         EvRun (Argv (cmake_command compiler_matrix)) ]
  /\ length (spawns (emitted st (do_config_cmd w compiler_matrix st).2)) = 4%nat.
Proof.
  destruct (do_config_cmd_attempt w compiler_matrix st)
    as (b & evs & st' & Hrun & Htr & _ & _ & _ & Hok & _).
  rewrite Hrun. simpl. intros Hb.
  assert (b = true) as -> by congruence.
  rewrite (emitted_app st st' evs Htr), (Hok eq_refl).
  split; [reflexivity |]. split; reflexivity.
Qed.

Lemma values_set_app (key : string) (l1 l2 : list Event) :
  values_set key (l1 ++ l2) = values_set key l1 ++ values_set key l2.
Proof. apply omap_app. Qed.

Lemma failed_attempts_app (l1 l2 : list Event) :
  failed_attempts (l1 ++ l2) = (failed_attempts l1 + failed_attempts l2)%nat.
Proof.
  unfold failed_attempts, occurrences. now rewrite filter_app, length_app.
Qed.

(** Lines 116–120: creating [build/], or noting that it is there. *)
Lemma do_config_mkdir_step (w : World) (st : State) :
  exists e st0,
    try_except_OSError
      (bind (os_mkdir w "build/")
            (fun _ => print "INFO: Created 'build/' directory"))
      (print_style "INFO: 'build/' directory already exists") st
    = (Ret tt, st0)
    /\ trace st0 = trace st ++ [EvMkdir "build/"; e]
    /\ (e = EvPrint "INFO: Created 'build/' directory"
        \/ e = EvPrintStyle "INFO: 'build/' directory already exists")
    /\ stdin st0 = stdin st
    /\ environ st0 = environ st
    /\ retry_avail_ st0 = retry_avail_ st.
Proof.
  unfold try_except_OSError, bind, os_mkdir, print, print_style, emit.
  destruct (mkdir_ok w (trace st) "build/"); simpl;
    eexists _, _; (split; [reflexivity |]); simpl;
    rewrite <- app_assoc; simpl; auto 7.
Qed.

(** C6: configuration tries the pair gcc-11/g++-11 first and the pair
    gcc/g++ only after that attempt has failed; it tries nothing else; and
    when both attempts fail, and only then, it ends the process through
    [sys.exit(-1)]. *)
Theorem do_config_tries_primary_then_fallback (w : World) (st : State) :
  (toolchains_tried (emitted st (do_config w st).2) = [primary_toolchain]
   /\ failed_attempts (emitted st (do_config w st).2) = 0%nat
   /\ (do_config w st).1 = Ret tt)
  \/ (toolchains_tried (emitted st (do_config w st).2)
      = [primary_toolchain; fallback_toolchain]
      /\ failed_attempts (emitted st (do_config w st).2) = 1%nat
      /\ (do_config w st).1 = Ret tt)
  \/ (toolchains_tried (emitted st (do_config w st).2)
      = [primary_toolchain; fallback_toolchain]
      /\ failed_attempts (emitted st (do_config w st).2) = 2%nat
      /\ (do_config w st).1 = SysExit (-1)).
Proof.
  unfold do_config.
  destruct (do_config_mkdir_step w st) as (e & st0 & Hmk & Htr0 & He & _).
  rewrite (bind_Ret _ _ _ _ _ Hmk).
  assert (Hv0 : forall key, values_set key [EvMkdir "build/"; e] = [])
    by (intros key; destruct He as [-> | ->]; reflexivity).
  assert (Hf0 : failed_attempts [EvMkdir "build/"; e] = 0%nat)
    by (destruct He as [-> | ->]; reflexivity).
  destruct (do_config_cmd_attempt w ("gcc-11", "g++-11") st0)
    as (b1 & evs1 & st1 & Hrun1 & Htr1 & Hcc1 & Hcxx1 & Hfail1 & _).
  rewrite (bind_Ret _ _ _ _ _ Hrun1).
  destruct b1; cbn [negb].
  - left. unfold ret. simpl.
    rewrite (emitted_app st st1 ([EvMkdir "build/"; e] ++ evs1))
      by (rewrite Htr1, Htr0; now rewrite <- app_assoc).
    unfold toolchains_tried.
    rewrite !values_set_app, failed_attempts_app, !Hv0, Hcc1, Hcxx1, Hf0, Hfail1.
    split; [reflexivity |]. split; reflexivity.
  - destruct (do_config_cmd_attempt w ("gcc", "g++") st1)
      as (b2 & evs2 & st2 & Hrun2 & Htr2 & Hcc2 & Hcxx2 & Hfail2 & _).
    rewrite (bind_Ret _ _ _ _ _ Hrun2).
    assert (Hev : emitted st st2 = [EvMkdir "build/"; e] ++ evs1 ++ evs2).
    { apply emitted_app. rewrite Htr2, Htr1, Htr0. now rewrite <- !app_assoc. }
    right. destruct b2; cbn [negb]; [left | right];
      unfold ret, sys_exit; simpl; rewrite Hev; unfold toolchains_tried;
      rewrite !values_set_app, !failed_attempts_app, !Hv0, Hcc1, Hcxx1,
        Hcc2, Hcxx2, Hf0, Hfail1, Hfail2;
      (split; [reflexivity |]); split; reflexivity.
Qed.

(** ** [build] *)

Lemma do_config_leaves_test_flag (w : World) (st : State) :
  values_set "EUGENE_BUILD_TESTS" (emitted st (do_config w st).2) = [].
Proof.
  unfold do_config.
  destruct (do_config_mkdir_step w st) as (e & st0 & Hmk & Htr0 & He & _).
  rewrite (bind_Ret _ _ _ _ _ Hmk).
  assert (Hv0 : values_set "EUGENE_BUILD_TESTS" [EvMkdir "build/"; e] = [])
    by (destruct He as [-> | ->]; reflexivity).
  destruct (do_config_cmd_attempt w ("gcc-11", "g++-11") st0)
    as (b1 & evs1 & st1 & Hrun1 & Htr1 & _ & _ & _ & _ & Hfl1 & _).
  rewrite (bind_Ret _ _ _ _ _ Hrun1).
  destruct b1; cbn [negb].
  - unfold ret. simpl.
    rewrite (emitted_app st st1 ([EvMkdir "build/"; e] ++ evs1))
      by (rewrite Htr1, Htr0; now rewrite <- app_assoc).
    now rewrite values_set_app, Hv0, Hfl1.
  - destruct (do_config_cmd_attempt w ("gcc", "g++") st1)
      as (b2 & evs2 & st2 & Hrun2 & Htr2 & _ & _ & _ & _ & Hfl2 & _).
    rewrite (bind_Ret _ _ _ _ _ Hrun2).
    assert (Hev : emitted st st2 = [EvMkdir "build/"; e] ++ evs1 ++ evs2).
    { apply emitted_app. rewrite Htr2, Htr1, Htr0. now rewrite <- !app_assoc. }
    destruct b2; cbn [negb]; unfold ret, sys_exit; simpl; rewrite Hev;
      now rewrite !values_set_app, Hv0, Hfl1, Hfl2.
Qed.

Lemma parse_build_one (w : World) (cmd_line : list string) (sub : string)
    (st : State) :
  parse w cmd_line "build" [sub] 1 st
  = do_build w (Str.contains "test" sub) (Str.contains "doc" sub) st.
Proof. reflexivity. Qed.

(** C4, as it holds: for [build] with a sole sub-argument containing
    "test", the configuration workflow runs first and does not touch
    [EUGENE_BUILD_TESTS]; once it has succeeded the flag is set to "1", and
    then the build execution is started.  If that can be started, the run
    ends normally when the sub-argument does not contain "doc" and on the
    doc assertion when it does. *)
Theorem build_test_configures_then_flags_then_builds
    (w : World) (cmd_line : list string) (sub : string) (st st1 : State) :
  Str.contains "test" sub = true ->
  do_config w st = (Ret tt, st1) ->
  spawn w (trace st1 ++ [test_flag_set; EvPrintStyle "Building project and tests"])
        (Argv (Str.split ninja_command)) <> LaunchFailed ->
  trace (parse w cmd_line "build" [sub] 1 st).2
  = trace st1 ++ [test_flag_set; EvPrintStyle "Building project and tests"; ninja_run]
  /\ values_set "EUGENE_BUILD_TESTS" (emitted st st1) = []
  /\ environ (parse w cmd_line "build" [sub] 1 st).2 !! "EUGENE_BUILD_TESTS"
     = Some "1"
  /\ (parse w cmd_line "build" [sub] 1 st).1
     = (if Str.contains "doc" sub
        then Raise (AssertionError "Building doc is not yet supported")
        else Ret tt).
Proof.
  intros Htest Hcfg Hninja.
  rewrite parse_build_one, Htest. unfold do_build.
  rewrite (bind_Ret _ _ _ _ _ Hcfg).
  pose proof (do_config_leaves_test_flag w st) as Hfl. rewrite Hcfg in Hfl.
  unfold bind, setenv, print_style, emit, sp_run, ninja_run, test_flag_set in *.
  cbn [log trace fst snd environ set_environ] in *.
  change ("Building project" +:+ " and tests") with "Building project and tests".
  replace ((trace st1 ++ [EvSetEnv "EUGENE_BUILD_TESTS" "1"])
           ++ [EvPrintStyle "Building project and tests"])
    with (trace st1 ++ [EvSetEnv "EUGENE_BUILD_TESTS" "1";
                        EvPrintStyle "Building project and tests"])
    by (now rewrite <- app_assoc).
  destruct (spawn w _ _) as [code |]; [| congruence].
  split.
  { destruct (Str.contains "doc" sub); simpl; now rewrite <- !app_assoc. }
  split; [exact Hfl |].
  split.
  { destruct (Str.contains "doc" sub); simpl; apply lookup_insert_eq. }
  destruct (Str.contains "doc" sub); reflexivity.
Qed.

(** ** The recursion of [parse] *)

(** On a registered name the dispatcher never reaches line 218. *)
Lemma parse_body_registered (w : World) self1 self2 cmd_line s cmd_args cmd_argc st :
  s ∈ avail_args ->
  parse_body w self1 cmd_line s cmd_args cmd_argc st
  = parse_body w self2 cmd_line s cmd_args cmd_argc st.
Proof.
  intros H. change avail_args with ["build"; "test"; "lint"; "doc"; "clean"] in H.
  rewrite !elem_of_cons, elem_of_nil in H.
  destruct H as [-> | [-> | [-> | [-> | [-> | []]]]]]; reflexivity.
Qed.

(** Line 218 is reached only with a registered name. *)
Lemma parse_body_self (w : World) self1 self2 cmd_line cmd cmd_args cmd_argc st :
  (forall l s a n st', s ∈ avail_args -> self1 l s a n st' = self2 l s a n st') ->
  parse_body w self1 cmd_line cmd cmd_args cmd_argc st
  = parse_body w self2 cmd_line cmd cmd_args cmd_argc st.
Proof.
  intros Hself. unfold parse_body.
  apply bind_ext. intros _ st0 _.
  repeat (lazymatch goal with
          | |- (if ?b then _ else _) _ = _ => destruct b; [reflexivity |]
          end).
  apply bind_ext. intros _ st1 _.
  apply bind_ext. intros _ st2 _.
  apply bind_ext. intros [| | s] st3 Hac; try reflexivity.
  destruct (truthy (PyStr s)); [| reflexivity].
  apply Hself. apply (autocomplete_names_registered cmd st2 s).
  left. now rewrite Hac.
Qed.

(** Two nested calls are all [parse] ever makes: from depth two on, the
    result does not depend on the depth allowed, nor on what would happen
    below the second call. *)
Lemma parse_depth_two_suffices (w : World) (n : nat) self
    cmd_line cmd cmd_args cmd_argc st :
  parse_depth w (S (S n)) cmd_line cmd cmd_args cmd_argc st
  = parse_body w (parse_body w self) cmd_line cmd cmd_args cmd_argc st.
Proof.
  rewrite parse_depth_S. apply parse_body_self.
  intros l s a k st' Hs. rewrite parse_depth_S.
  now apply parse_body_registered.
Qed.

Lemma parse_total (w : World) self cmd_line cmd cmd_args cmd_argc st :
  parse w cmd_line cmd cmd_args cmd_argc st
  = parse_body w (parse_body w self) cmd_line cmd cmd_args cmd_argc st.
Proof. apply (parse_depth_two_suffices w 998). Qed.

(** ** The process as a whole *)

(** Lines 226–227: what [main] hands to [parse]. *)
Lemma main_dispatches (w : World) (prog cmd : string) (rest : list string)
    (st : State) :
  main w (prog :: cmd :: rest) st
  = parse w (map Str.lower (cmd :: rest)) (Str.lower cmd) (map Str.lower rest)
          (Z.of_nat (length rest)) st.
Proof.
  unfold main. cbn [length Nat.ltb Nat.leb map drop].
  rewrite length_map.
  replace (Z.of_nat (S (S (length rest))) - 2) with (Z.of_nat (length rest)) by lia.
  reflexivity.
Qed.

(** With two or more tokens after the command name the process stops on
    line 179, having done nothing. *)
Lemma main_rejects_extra_args (w : World) (prog cmd a b : string)
    (rest : list string) (st : State) :
  main w (prog :: cmd :: a :: b :: rest) st = (Raise (AssertionError ""), st).
Proof.
  rewrite main_dispatches, parse_unfold.
  apply parse_body_extra_args. simpl length. lia.
Qed.

(** ** Instances *)

Lemma parse_rejects_extra_args_witness :
  1 < 2
  /\ parse world_ok ["build"; "test"; "doc"] "build" ["test"; "doc"] 2 (fresh ∅ [])
     = (Raise (AssertionError ""), fresh ∅ []).
Proof.
  split; [reflexivity |].
  apply (parse_rejects_extra_args world_ok ["build"; "test"; "doc"] "build"
           ["test"; "doc"] 2 (fresh ∅ [])).
  reflexivity.
Defined.

(** "dc" is at distance 1 from "doc", exactly half its length, and further
    from the names listed before it. *)
Lemma autocomplete_offers_first_within_half_witness :
  retry_avail_ (fresh ∅ ["n"]) = true
  /\ (2 * lev "dc" "doc" = Str.len "dc")%nat
  /\ (offered (emitted (fresh ∅ ["n"]) (autocomplete "dc" (fresh ∅ ["n"])).2) "doc"
      <-> first_qualifying "dc" (map field AvailableParams) "doc").
Proof.
  split; [reflexivity |]. split; [reflexivity |].
  apply (autocomplete_offers_first_within_half "dc" (fresh ∅ ["n"])).
  reflexivity.
Defined.

Lemma retry_gate_allows_one_attempt_witness :
  retry_avail_ (set_retry false (fresh ∅ ["y"])) = false
  /\ autocomplete "biuld" (set_retry false (fresh ∅ ["y"]))
     = (Ret PyFalse, set_retry false (fresh ∅ ["y"])).
Proof.
  split; [reflexivity |].
  apply (retry_gate_allows_one_attempt "biuld" (set_retry false (fresh ∅ ["y"]))).
  reflexivity.
Defined.

Lemma clean_flags_witness :
  ("clean" = "clean" \/ "clean" = "mrproper")
  /\ parse world_ok ["clean"] "clean" [] 0 (fresh ∅ [])
     = parse world_ok ["clean"; "force"] "clean" ["force"] 1 (fresh ∅ []).
Proof.
  split; [left; reflexivity |].
  exact (proj1 (proj2 (proj2 (proj2 (proj2 (proj2 (proj2
           (clean_flags world_ok ["clean"] ["clean"; "force"] "clean" "kind"
              (fresh ∅ []) (or_introl eq_refl))))))))).
Defined.

Lemma do_if_runs_unless_declined_witness :
  stdin (fresh ∅ ["Y"]) = ["Y"]
  /\ (EvRun (Argv (Str.split "rm -rf build"))
        ∈ emitted (fresh ∅ ["Y"])
            (do_if world_ok "rm -rf build" "Removing build directory" true
                   (fresh ∅ ["Y"])).2
      <-> "Y" = "" \/ "Y" = "y" \/ "Y" = "Y").
Proof.
  split; [reflexivity |].
  exact (proj1 (do_if_runs_unless_declined world_ok "rm -rf build"
                  "Removing build directory" (fresh ∅ ["Y"]))
               "Y" [] eq_refl).
Defined.

Lemma suggestions_come_from_the_registry_witness :
  (autocomplete "biuld" (fresh ∅ ["y"])).1 = Ret (PyStr "build")
  /\ "build" ∈ ["build"; "test"; "lint"; "doc"; "clean"].
Proof.
  split; [reflexivity |].
  apply (suggestions_come_from_the_registry "biuld" (fresh ∅ ["y"]) "build").
  left. reflexivity.
Defined.

Lemma successful_attempt_runs_each_command_twice_witness :
  (do_config_cmd world_ok primary_toolchain (fresh ∅ [])).1 = Ret true
  /\ length (spawns (emitted (fresh ∅ [])
                       (do_config_cmd world_ok primary_toolchain (fresh ∅ [])).2))
     = 4%nat.
Proof.
  split; [reflexivity |].
  apply (successful_attempt_runs_each_command_twice world_ok primary_toolchain
           (fresh ∅ [])).
  reflexivity.
Defined.

Lemma build_test_configures_then_flags_then_builds_witness :
  Str.contains "test" "test" = true
  /\ do_config world_ok (fresh ∅ []) = (Ret tt, configured)
  /\ trace (parse world_ok ["build"; "test"] "build" ["test"] 1 (fresh ∅ [])).2
     = trace configured
       ++ [test_flag_set; EvPrintStyle "Building project and tests"; ninja_run]
  /\ (parse world_ok ["build"; "test"] "build" ["test"] 1 (fresh ∅ [])).1 = Ret tt.
Proof.
  assert (H1 : Str.contains "test" "test" = true) by reflexivity.
  assert (H2 : do_config world_ok (fresh ∅ []) = (Ret tt, configured))
    by reflexivity.
  assert (H3 : spawn world_ok
                 (trace configured
                  ++ [test_flag_set; EvPrintStyle "Building project and tests"])
                 (Argv (Str.split ninja_command)) <> LaunchFailed)
    by discriminate.
  pose proof (build_test_configures_then_flags_then_builds world_ok
                ["build"; "test"] "test" (fresh ∅ []) configured H1 H2 H3)
    as (Htr & _ & _ & Hres).
  split; [exact H1 |]. split; [exact H2 |]. split; [exact Htr | exact Hres].
Defined.

(** C4, as stated, fails: with every tool succeeding, [build test] exports
    the flag only after configuration has run, not before it; with a
    sub-argument such as "doctest", which contains "test", the run ends on
    the doc assertion; and when no configuration attempt succeeds the flag
    is never set and the process exits. *)
Lemma build_test_flag_is_not_set_first :
  ~ flag_then_config_then_build world_ok "test" (fresh ∅ [])
  /\ ~ flag_then_config_then_build world_ok "doctest" (fresh ∅ [])
  /\ ~ flag_then_config_then_build world_failing "test" (fresh ∅ []).
Proof.
  split; [| split].
  - intros (_ & Horder & _). vm_compute in Horder. discriminate Horder.
  - intros (_ & _ & _ & Hres). vm_compute in Hres. discriminate Hres.
  - intros (Hflag & _). vm_compute in Hflag. discriminate Hflag.
Qed.

(** The same run, positively: configuration comes before the flag, the
    flag before the build. *)
Example build_test_order :
  occurs_before (EvMkdir "build/") test_flag_set
    (trace (parse world_ok ["build"; "test"] "build" ["test"] 1 (fresh ∅ [])).2)
  = true
  /\ occurs_before test_flag_set ninja_run
       (trace (parse world_ok ["build"; "test"] "build" ["test"] 1 (fresh ∅ [])).2)
     = true
  /\ (parse world_failing ["build"; "test"] "build" ["test"] 1 (fresh ∅ [])).1
     = SysExit (-1).
Proof. vm_compute. repeat split. Qed.

(** "tent" is within the threshold of both [test] and [lint]; only [test],
    the earlier one, is offered. *)
Example tent_offers_test_only :
  qualifies "tent" "test" /\ qualifies "tent" "lint"
  /\ emitted (fresh ∅ ["n"]) (autocomplete "tent" (fresh ∅ ["n"])).2
     = [EvPrintStyle (proceed_prompt "test"); EvInput ""; EvPrint ""].
Proof.
  split; [vm_compute; lia |]. split; [vm_compute; lia |]. reflexivity.
Qed.

(** With no tool installed and [build/] already there, [config] gives up
    after both attempts. *)
Example config_without_tools :
  (main world_bare ["eugene"; "config"] (fresh ∅ [])).1 = SysExit (-1)
  /\ toolchains_tried (trace (main world_bare ["eugene"; "config"] (fresh ∅ [])).2)
     = [primary_toolchain; fallback_toolchain].
Proof. split; reflexivity. Qed.

(** * Further properties *)

(** ** Policies *)

Lemma within_refl (p : Policy) (st : State) : within p st st.
Proof.
  split; [exists []; split; [now rewrite app_nil_r | reflexivity] |].
  split; [reflexivity |]. split; reflexivity.
Qed.

Lemma within_trans (p : Policy) (a b c : State) :
  within p a b -> within p b c -> within p a c.
Proof.
  intros ((e1 & T1 & F1) & S1 & E1 & G1) ((e2 & T2 & F2) & S2 & E2 & G2).
  split.
  { exists (e1 ++ e2). split; [rewrite T2, T1; now rewrite app_assoc |].
    rewrite forallb_app, F1, F2. reflexivity. }
  split; [intros H; now rewrite (S2 H), (S1 H) |].
  split; [intros k H; now rewrite (E2 k H), (E1 k H) |].
  intros H. now rewrite (G2 H), (G1 H).
Qed.

Lemma within_log (p : Policy) (e : Event) (st : State) :
  may_emit p e = true -> within p st (log e st).
Proof.
  intros H. split; [exists [e]; split; [reflexivity | simpl; now rewrite H] |].
  split; [reflexivity |]. split; reflexivity.
Qed.

Lemma sw_ret {A} (p : Policy) (a : A) : stays_within p (ret a).
Proof. intros st. apply within_refl. Qed.

Lemma sw_raise {A} (p : Policy) (e : Exn) : stays_within p (@raise A e).
Proof. intros st. apply within_refl. Qed.

Lemma sw_sys_exit {A} (p : Policy) (c : Z) : stays_within p (@sys_exit A c).
Proof. intros st. apply within_refl. Qed.

Lemma sw_assert (p : Policy) (cond : bool) (msg : string) :
  stays_within p (assert_ cond msg).
Proof. destruct cond; intros st; apply within_refl. Qed.

Lemma sw_bind {A B} (p : Policy) (m : M A) (k : A -> M B) :
  stays_within p m -> (forall a, stays_within p (k a)) ->
  stays_within p (bind m k).
Proof.
  intros Hm Hk st. unfold bind. specialize (Hm st).
  destruct (m st) as [[a | e | c] st'] eqn:E; simpl in *; try exact Hm.
  apply (within_trans p st st'); [exact Hm | apply Hk].
Qed.

(** When [m] never returns, what follows it does not matter. *)
Lemma sw_bind_no_return {A B} (p : Policy) (m : M A) (k : A -> M B) :
  (forall st a, (m st).1 <> Ret a) -> stays_within p m ->
  stays_within p (bind m k).
Proof.
  intros Hno Hm st. unfold bind. specialize (Hm st). specialize (Hno st).
  destruct (m st) as [[a | e | c] st']; simpl in *; try exact Hm.
  now destruct (Hno a).
Qed.

Lemma sw_try_except {A} (p : Policy) (body handler : M A) :
  stays_within p body -> stays_within p handler ->
  stays_within p (try_except body handler).
Proof.
  intros Hb Hh st. unfold try_except. specialize (Hb st).
  destruct (body st) as [[a | e | c] st']; simpl in *; try exact Hb;
    (apply (within_trans p st st'); [exact Hb | apply Hh]).
Qed.

Lemma sw_try_except_OSError {A} (p : Policy) (body handler : M A) :
  stays_within p body -> stays_within p handler ->
  stays_within p (try_except_OSError body handler).
Proof.
  intros Hb Hh st. unfold try_except_OSError. specialize (Hb st).
  destruct (body st) as [[a | [] | c] st']; simpl in *; try exact Hb;
    (apply (within_trans p st st'); [exact Hb | apply Hh]).
Qed.

Lemma sw_emit (p : Policy) (e : Event) :
  may_emit p e = true -> stays_within p (emit e).
Proof. intros H st. now apply within_log. Qed.

Lemma sw_input (p : Policy) (prompt : string) :
  may_read p = true -> may_emit p (EvInput prompt) = true ->
  stays_within p (input prompt).
Proof.
  intros Hr He st. unfold input. cbn [log stdin].
  destruct (stdin st) as [| line rest]; cbn [snd]; [now apply within_log |].
  split; [exists [EvInput prompt]; split; [reflexivity | simpl; now rewrite He] |].
  split; [intros H; congruence |]. split; reflexivity.
Qed.

Lemma sw_setenv (p : Policy) (key value : string) :
  may_setenv p key = true -> may_emit p (EvSetEnv key value) = true ->
  stays_within p (setenv key value).
Proof.
  intros Hk He st. unfold setenv. cbn [snd].
  split; [exists [EvSetEnv key value]; split; [reflexivity | simpl; now rewrite He] |].
  split; [reflexivity |]. split; [| reflexivity].
  intros k H. cbn [log environ set_environ].
  apply lookup_insert_ne. intros ->. congruence.
Qed.

Lemma sw_os_mkdir (p : Policy) (w : World) (path : string) :
  may_emit p (EvMkdir path) = true -> stays_within p (os_mkdir w path).
Proof.
  intros He st. unfold os_mkdir.
  destruct (mkdir_ok _ _ _); now apply within_log.
Qed.

Lemma sw_sp_run (p : Policy) (w : World) (c : Cmd) :
  may_emit p (EvRun c) = true -> stays_within p (sp_run w c).
Proof.
  intros He st. unfold sp_run. destruct (spawn _ _ _); now apply within_log.
Qed.

Lemma sw_sp_check_call (p : Policy) (w : World) (c : Cmd) :
  may_emit p (EvCheckCall c) = true -> stays_within p (sp_check_call w c).
Proof.
  intros He st. unfold sp_check_call.
  destruct (spawn _ _ _) as [[| ? | ?] |]; now apply within_log.
Qed.

Lemma within_emitted (p : Policy) (st st' : State) (e : Event) :
  within p st st' -> e ∈ emitted st st' -> may_emit p e = true.
Proof.
  intros ((evs & Htr & Hall) & _) He.
  rewrite (emitted_app st st' evs Htr) in He.
  rewrite forallb_forall in Hall. apply Hall. now apply list_elem_of_In.
Qed.

Lemma key_in_false (keys : list string) (key : string) :
  key ∉ keys -> key_in keys key = false.
Proof.
  intros H. unfold key_in. induction keys as [| k keys IH]; [reflexivity |].
  apply not_elem_of_cons in H as [Hk Hks]. simpl.
  rewrite (proj2 (eqb_false_iff key k) Hk). now apply IH.
Qed.

Lemma sw_autocomplete_scan (p : Policy) (arg : string) (names : list string) :
  may_read p = true ->
  (forall c, may_emit p (EvPrintStyle (proceed_prompt c)) = true) ->
  may_emit p (EvInput "") = true ->
  may_emit p (EvPrint "") = true ->
  stays_within p (autocomplete_scan arg names).
Proof.
  intros Hr Hp Hi He.
  induction names as [| x names IH]; simpl.
  - apply sw_bind; [now apply sw_emit | intros; apply sw_ret].
  - destruct (within_required _ _); [| exact IH].
    apply sw_bind; [apply sw_emit, Hp | intros _].
    apply sw_bind; [now apply sw_input | intros answer].
    destruct (Str.eqb _ _);
      (apply sw_bind; [now apply sw_emit | intros; apply sw_ret]).
Qed.

Lemma sw_autocomplete (p : Policy) (arg : string) :
  may_touch_gate p = true ->
  may_read p = true ->
  (forall c, may_emit p (EvPrintStyle (proceed_prompt c)) = true) ->
  may_emit p (EvInput "") = true ->
  may_emit p (EvPrint "") = true ->
  stays_within p (autocomplete arg).
Proof.
  intros Hg Hr Hp Hi He st. unfold autocomplete.
  destruct (retry_avail_ st); cbn [negb]; [| apply within_refl].
  apply (within_trans p st (set_retry false st)).
  - split; [exists []; split; [now rewrite app_nil_r | reflexivity] |].
    split; [reflexivity |]. split; [reflexivity | intros H; congruence].
  - now apply sw_autocomplete_scan.
Qed.

(** A computation that never returns normally. *)
Lemma bind_no_return_l {A B} (m : M A) (k : A -> M B) :
  (forall st a, (m st).1 <> Ret a) -> forall st b, (bind m k st).1 <> Ret b.
Proof.
  intros Hm st b. unfold bind. specialize (Hm st).
  destruct (m st) as [[a | e | c] st']; simpl in *;
    [now destruct (Hm a) | discriminate | discriminate].
Qed.

Lemma bind_no_return_r {A B} (m : M A) (k : A -> M B) :
  (forall a st b, (k a st).1 <> Ret b) -> forall st b, (bind m k st).1 <> Ret b.
Proof.
  intros Hk st b. unfold bind.
  destruct (m st) as [[a | e | c] st']; simpl;
    [apply Hk | discriminate | discriminate].
Qed.

(** Line 135: a build that was asked for the documentation does not
    return. *)
Lemma do_build_doc_never_returns (w : World) (test : bool) :
  forall st a, (do_build w test true st).1 <> Ret a.
Proof.
  unfold do_build.
  apply bind_no_return_r; intros _.
  apply bind_no_return_r; intros _.
  apply bind_no_return_r; intros _.
  apply bind_no_return_r; intros _.
  intros st b. discriminate.
Qed.

Ltac policy_side :=
  first [ assumption | reflexivity | vm_compute; reflexivity
        | intros; first [reflexivity | vm_compute; reflexivity] ].

(** Walks through the script, from the dispatcher down to the primitives,
    checking each step against the policy. *)
Ltac sw_step :=
  lazymatch goal with
  | |- stays_within _ (bind (do_build _ _ true) _) =>
      apply sw_bind_no_return; [apply do_build_doc_never_returns |]
  | |- stays_within _ (bind _ _) => apply sw_bind; [| intros ?]
  | |- stays_within _ (try_except _ _) => apply sw_try_except
  | |- stays_within _ (try_except_OSError _ _) => apply sw_try_except_OSError
  | |- stays_within _ (ret _) => apply sw_ret
  | |- stays_within _ (raise _) => apply sw_raise
  | |- stays_within _ (sys_exit _) => apply sw_sys_exit
  | |- stays_within _ (assert_ _ _) => apply sw_assert
  | |- stays_within _ (print _) => apply sw_emit; policy_side
  | |- stays_within _ (print_style _) => apply sw_emit; policy_side
  | |- stays_within _ (emit _) => apply sw_emit; policy_side
  | |- stays_within _ (input _) => apply sw_input; policy_side
  | |- stays_within _ (setenv _ _) => apply sw_setenv; policy_side
  | |- stays_within _ (os_mkdir _ _) => apply sw_os_mkdir; policy_side
  | |- stays_within _ (sp_run _ _) => apply sw_sp_run; policy_side
  | |- stays_within _ (sp_check_call _ _) => apply sw_sp_check_call; policy_side
  | |- stays_within _ (autocomplete _) => apply sw_autocomplete; policy_side
  | |- stays_within _ (do_if _ _ _ _) => unfold do_if
  | |- stays_within _ (do_clean _ _) => unfold do_clean
  | |- stays_within _ (do_config_cmd _ _) => unfold do_config_cmd
  | |- stays_within _ (do_config _) => unfold do_config
  | |- stays_within _ (do_build _ _ _) => unfold do_build
  | |- stays_within _ (do_run_test _) => unfold do_run_test
  | |- stays_within _ (do_lint _) => unfold do_lint
  | |- stays_within _ do_updoc => unfold do_updoc
  | |- stays_within _ usage => unfold usage
  | |- stays_within _ (first_arg _) => unfold first_arg
  | |- stays_within _ (sole_arg_has _ _ _) => unfold sole_arg_has
  | |- stays_within _ (clean_forced _ _) => unfold clean_forced
  | |- stays_within _ (clean_kind _ _) => unfold clean_kind
  | |- stays_within _ (setup_loop _ _ _) => cbn [setup_loop]
  | |- stays_within _ (setup _ _) => unfold setup
  | |- stays_within _ (install_missing _) => unfold install_missing
  | |- stays_within ?p (if ?b then ?x else ?y) =>
      let v := eval vm_compute in b in
      lazymatch v with
      | true => change (stays_within p x)
      | false => change (stays_within p y)
      | _ => destruct b
      end
  | |- stays_within _ (match ?x with _ => _ end) => destruct x
  | |- stays_within _ _ => solve [auto]
  end.

Ltac sw_walk := repeat sw_step.

(** ** What the known commands do not do *)

Lemma prefix_app (s t : string) : String.prefix s (s +:+ t) = true.
Proof.
  induction s as [| c s IH]; [now destruct t |].
  change (String.prefix (String c s) (String c (s +:+ t)) = true).
  simpl. destruct (ascii_dec c c) as [_ | Hne]; [exact IH | now destruct Hne].
Qed.

Lemma dispatchable_cases (cmd : string) :
  cmd ∈ dispatchable ->
  cmd = "build" \/ cmd = "config" \/ cmd = "test" \/ cmd = "clean"
  \/ cmd = "mrproper" \/ cmd = "lint" \/ cmd = "doc" \/ cmd = "version".
Proof.
  unfold dispatchable. rewrite !elem_of_cons, elem_of_nil. tauto.
Qed.

Lemma parse_known_direct (w : World) cmd_line cmd cmd_args cmd_argc :
  cmd ∈ dispatchable ->
  stays_within direct_dispatch (parse w cmd_line cmd cmd_args cmd_argc).
Proof.
  intros H. apply dispatchable_cases in H. rewrite parse_unfold.
  destruct H as [-> | [-> | [-> | [-> | [-> | [-> | [-> | ->]]]]]]];
    unfold parse_body; sw_walk.
Qed.

(** X1: a command the dispatcher has a branch for is never handed to the
    matcher, whatever follows it on the command line: the usage text is
    not printed, no name is offered, and the retry gate is left as it
    was. *)
Theorem known_commands_bypass_the_matcher
    (w : World) (cmd_line : list string) (cmd : string)
    (cmd_args : list string) (cmd_argc : Z) (st : State) :
  cmd ∈ dispatchable ->
  (EvPrint usage_str ∉ emitted st (parse w cmd_line cmd cmd_args cmd_argc st).2)
  /\ (forall cand,
        ~ offered (emitted st (parse w cmd_line cmd cmd_args cmd_argc st).2) cand)
  /\ retry_avail_ (parse w cmd_line cmd cmd_args cmd_argc st).2 = retry_avail_ st.
Proof.
  intros H.
  pose proof (parse_known_direct w cmd_line cmd cmd_args cmd_argc H st) as Hw.
  split; [| split].
  - intros Hin. apply (within_emitted _ _ _ _ Hw) in Hin.
    cbn [may_emit direct_dispatch no_matcher_output] in Hin.
    rewrite (proj2 (eqb_true_iff usage_str usage_str) eq_refl) in Hin.
    discriminate Hin.
  - intros cand Hin. apply (within_emitted _ _ _ _ Hw) in Hin.
    cbn [may_emit direct_dispatch no_matcher_output] in Hin.
    unfold proceed_prompt in Hin. rewrite prefix_app in Hin. discriminate Hin.
  - destruct Hw as (_ & _ & _ & Hg). now apply Hg.
Qed.

Lemma parse_unattended (w : World) cmd_line cmd cmd_args cmd_argc :
  cmd ∈ ["build"; "config"; "test"; "lint"; "doc"; "version"] ->
  stays_within unattended (parse w cmd_line cmd cmd_args cmd_argc).
Proof.
  rewrite !elem_of_cons, elem_of_nil. intros H. rewrite parse_unfold.
  destruct H as [-> | [-> | [-> | [-> | [-> | [-> | []]]]]]];
    unfold parse_body; sw_walk.
Qed.

(** X2: [build], [config], [test], [lint], [doc] and [version] never ask
    the user anything: whatever their sub-arguments and whatever the tools
    do, no line is read from standard input and no prompt is written. *)
Theorem six_commands_never_prompt
    (w : World) (cmd_line : list string) (cmd : string)
    (cmd_args : list string) (cmd_argc : Z) (st : State) :
  cmd ∈ ["build"; "config"; "test"; "lint"; "doc"; "version"] ->
  stdin (parse w cmd_line cmd cmd_args cmd_argc st).2 = stdin st
  /\ (forall prompt,
        EvInput prompt ∉ emitted st (parse w cmd_line cmd cmd_args cmd_argc st).2).
Proof.
  intros H.
  pose proof (parse_unattended w cmd_line cmd cmd_args cmd_argc H st) as Hw.
  split.
  - destruct Hw as (_ & Hs & _). now apply Hs.
  - intros prompt Hin. apply (within_emitted _ _ _ _ Hw) in Hin.
    discriminate Hin.
Qed.

Lemma parse_depth_environment (w : World) (n : nat) cmd_line cmd cmd_args cmd_argc :
  stays_within script_environment
    (parse_depth w n cmd_line cmd cmd_args cmd_argc).
Proof.
  revert cmd_line cmd cmd_args cmd_argc.
  induction n as [| n IH]; intros; [apply sw_raise |].
  rewrite parse_depth_S. unfold parse_body. sw_walk.
Qed.

Lemma main_environment (w : World) (argv : list string) :
  stays_within script_environment (main w argv).
Proof.
  unfold main. sw_walk. unfold parse. apply parse_depth_environment.
Qed.

(** X3: [CC], [CXX] and [EUGENE_BUILD_TESTS] are the only environment
    variables a run can change; every other variable has at the end the
    value, or the absence, it had at the start.  Nothing is ever unset. *)
Theorem run_writes_only_three_variables
    (w : World) (argv : list string) (st : State) (key : string) :
  key ∉ ["CC"; "CXX"; "EUGENE_BUILD_TESTS"] ->
  environ (main w argv st).2 !! key = environ st !! key
  /\ (forall cmd_line cmd cmd_args cmd_argc,
        environ (parse w cmd_line cmd cmd_args cmd_argc st).2 !! key
        = environ st !! key).
Proof.
  intros H. apply key_in_false in H. split.
  - destruct (main_environment w argv st) as (_ & _ & He & _). now apply He.
  - intros cmd_line cmd cmd_args cmd_argc.
    destruct (parse_depth_environment w recursion_limit cmd_line cmd cmd_args
                cmd_argc st) as (_ & _ & He & _).
    now apply He.
Qed.

Lemma parse_depth_no_upload (w : World) (n : nat) cmd_line cmd cmd_args cmd_argc :
  stays_within no_upload (parse_depth w n cmd_line cmd cmd_args cmd_argc).
Proof.
  revert cmd_line cmd cmd_args cmd_argc.
  induction n as [| n IH]; intros; [apply sw_raise |].
  rewrite parse_depth_S. unfold parse_body. sw_walk.
Qed.

Lemma parse_doc (w : World) self cmd_line cmd_args cmd_argc st :
  parse_body w self cmd_line "doc" cmd_args cmd_argc st
  = bind (assert_ (cmd_argc <=? 1) "")
      (fun _ => bind (do_build w false true)
         (fun _ => bind (sole_arg_has "up" cmd_args cmd_argc)
            (fun up => if up then do_updoc else ret tt))) st.
Proof. reflexivity. Qed.

(** X4: the [doc] command never ends normally, and no command ever
    reaches the upload of line 209: the run stops in the build it starts
    with, on the assertion of line 135 at the latest. *)
Theorem doc_never_uploads
    (w : World) (cmd_line : list string) (cmd : string)
    (cmd_args : list string) (cmd_argc : Z) (st : State) :
  (parse w cmd_line "doc" cmd_args cmd_argc st).1 <> Ret tt
  /\ (EvPrint "Uploading docs"
        ∉ emitted st (parse w cmd_line cmd cmd_args cmd_argc st).2).
Proof.
  split.
  - rewrite parse_unfold, parse_doc.
    apply bind_no_return_r. intros _.
    apply bind_no_return_l. apply do_build_doc_never_returns.
  - intros Hin.
    apply (within_emitted _ _ _ _
             (parse_depth_no_upload w recursion_limit cmd_line cmd cmd_args
                cmd_argc st)) in Hin.
    discriminate Hin.
Qed.

Lemma do_build_plain_no_test_flag (w : World) (doc : bool) :
  stays_within no_test_flag (do_build w false doc).
Proof. sw_walk. Qed.

Lemma parse_other_no_test_flag (w : World) cmd_line cmd cmd_args cmd_argc :
  cmd ∈ ["config"; "clean"; "mrproper"; "lint"; "doc"; "version"] ->
  stays_within no_test_flag (parse w cmd_line cmd cmd_args cmd_argc).
Proof.
  rewrite !elem_of_cons, elem_of_nil. intros H. rewrite parse_unfold.
  destruct H as [-> | [-> | [-> | [-> | [-> | [-> | []]]]]]];
    unfold parse_body; sw_walk.
Qed.

Lemma parse_build_none (w : World) (cmd_line : list string) (st : State) :
  parse w cmd_line "build" [] 0 st = do_build w false false st.
Proof. reflexivity. Qed.

(** X5: [EUGENE_BUILD_TESTS] is left as it was, set or not, by [config],
    [clean], [mrproper], [lint], [doc] and [version], by a bare [build],
    and by [build] with a sub-argument that does not contain "test": a
    plain build neither sets nor clears the flag. *)
Theorem plain_builds_leave_test_flag
    (w : World) (cmd_line : list string) (sub : string) (st : State) :
  (forall cmd cmd_args cmd_argc,
      cmd ∈ ["config"; "clean"; "mrproper"; "lint"; "doc"; "version"] ->
      environ (parse w cmd_line cmd cmd_args cmd_argc st).2 !! "EUGENE_BUILD_TESTS"
      = environ st !! "EUGENE_BUILD_TESTS")
  /\ environ (parse w cmd_line "build" [] 0 st).2 !! "EUGENE_BUILD_TESTS"
     = environ st !! "EUGENE_BUILD_TESTS"
  /\ (Str.contains "test" sub = false ->
      environ (parse w cmd_line "build" [sub] 1 st).2 !! "EUGENE_BUILD_TESTS"
      = environ st !! "EUGENE_BUILD_TESTS").
Proof.
  split; [| split].
  - intros cmd cmd_args cmd_argc H.
    destruct (parse_other_no_test_flag w cmd_line cmd cmd_args cmd_argc H st)
      as (_ & _ & He & _).
    now apply He.
  - rewrite parse_build_none.
    destruct (do_build_plain_no_test_flag w false st) as (_ & _ & He & _).
    now apply He.
  - intros Hsub. rewrite parse_build_one, Hsub.
    destruct (do_build_plain_no_test_flag w (Str.contains "doc" sub) st)
      as (_ & _ & He & _).
    now apply He.
Qed.

(** ** From a mistyped command to the command meant *)

Lemma scan_first (arg : string) (names : list string) (c : string) (st : State) :
  first_qualifying arg names c -> autocomplete_scan arg names st = ask c st.
Proof.
  intros Hc.
  destruct (autocomplete_scan_spec arg names st)
    as [[Hall _] | (c' & Hc' & Hscan)].
  - destruct Hc as (pre & post & -> & Q & _).
    rewrite Forall_forall in Hall. exfalso. apply (Hall c); [| exact Q].
    apply elem_of_app. right. apply list_elem_of_here.
  - now rewrite (first_qualifying_unique arg names c c' Hc Hc').
Qed.

Lemma scan_none (arg : string) (names : list string) (st : State) :
  Forall (fun c => ~ qualifies arg c) names ->
  autocomplete_scan arg names st = (Ret PyNone, log (EvPrint "") st).
Proof.
  intros Hall.
  destruct (autocomplete_scan_spec arg names st)
    as [[_ Hscan] | (c & (pre & post & -> & Q & _) & _)]; [exact Hscan |].
  rewrite Forall_forall in Hall. exfalso. apply (Hall c); [| exact Q].
  apply elem_of_app. right. apply list_elem_of_here.
Qed.

Lemma ask_answered (c answer : string) (rest : list string) (st : State) :
  stdin st = answer :: rest ->
  ask c st
  = (Ret (if Str.eqb (Str.lower answer) "y" then PyStr c else PyNone),
     mkState (retry_avail_ st) (environ st) rest
             (trace st ++ [EvPrintStyle (proceed_prompt c); EvInput "";
                           EvPrint ""])).
Proof.
  intros Hin. unfold ask, bind, print_style, print, emit, input.
  cbn [log stdin trace]. rewrite Hin.
  destruct (Str.eqb (Str.lower answer) "y"); unfold ret, log, set_stdin;
    cbn [retry_avail_ environ stdin trace]; now rewrite <- !app_assoc.
Qed.

Lemma ask_at_end_of_input (c : string) (st : State) :
  stdin st = [] ->
  ask c st
  = (Raise EOFError,
     mkState (retry_avail_ st) (environ st) []
             (trace st ++ [EvPrintStyle (proceed_prompt c); EvInput ""])).
Proof.
  intros Hin. unfold ask, bind, print_style, print, emit, input.
  cbn [log stdin trace]. rewrite Hin. unfold log.
  cbn [retry_avail_ environ stdin trace]. now rewrite <- !app_assoc, Hin.
Qed.

Lemma registered_truthy (c : string) : c ∈ avail_args -> truthy (PyStr c) = true.
Proof.
  change avail_args with ["build"; "test"; "lint"; "doc"; "clean"].
  rewrite !elem_of_cons, elem_of_nil.
  intros [-> | [-> | [-> | [-> | [-> | []]]]]]; reflexivity.
Qed.

Lemma first_qualifying_in (arg : string) (names : list string) (c : string) :
  first_qualifying arg names c -> c ∈ names.
Proof.
  intros (pre & post & -> & _). apply elem_of_app. right. apply list_elem_of_here.
Qed.

(** For a registered name every allowance of nested calls gives the same
    dispatch. *)
Lemma parse_depth_registered (w : World) (n : nat) cmd_line c cmd_args cmd_argc st :
  c ∈ avail_args ->
  parse_depth w (S n) cmd_line c cmd_args cmd_argc st
  = parse w cmd_line c cmd_args cmd_argc st.
Proof.
  intros Hc. rewrite parse_unfold, parse_depth_S.
  now apply parse_body_registered.
Qed.

(** What the dispatcher does with a name it does not know, the gate open:
    usage, blank line, then the matcher's loop with the gate closed. *)
Lemma parse_unrecognized_open (w : World) cmd_line cmd cmd_args cmd_argc st :
  cmd ∉ dispatchable -> cmd_argc <= 1 -> retry_avail_ st = true ->
  parse w cmd_line cmd cmd_args cmd_argc st
  = bind (autocomplete_scan cmd avail_args)
      (fun actual_cmd =>
         match actual_cmd with
         | PyStr s => if truthy actual_cmd
                      then parse_depth w 999 cmd_line s cmd_args cmd_argc
                      else ret tt
         | _ => ret tt
         end)
      (mkState false (environ st) (stdin st)
               (trace st ++ [EvPrint usage_str; EvPrint nl])).
Proof.
  intros Hcmd Hle Hopen. rewrite parse_unfold.
  rewrite (parse_body_unrecognized w _ cmd_line cmd cmd_args cmd_argc st Hcmd Hle).
  unfold bind at 1.
  rewrite autocomplete_open by exact Hopen.
  unfold bind, set_retry, log. cbn [retry_avail_ environ stdin trace].
  now rewrite <- app_assoc.
Qed.

(** X6: a mistyped command whose first qualifying registry name is [c],
    answered with "y" or "Y", is dispatched as [c] with the sub-arguments
    and the count it came with; by then the gate is closed, the answer is
    consumed, and the usage text and the question are on the console. *)
Theorem accepted_suggestion_is_dispatched
    (w : World) (cmd_line : list string) (cmd c : string)
    (cmd_args : list string) (cmd_argc : Z) (answer : string)
    (rest : list string) (st : State) :
  cmd ∉ dispatchable -> cmd_argc <= 1 -> retry_avail_ st = true ->
  first_qualifying cmd (map field AvailableParams) c ->
  stdin st = answer :: rest ->
  answer = "y" \/ answer = "Y" ->
  parse w cmd_line cmd cmd_args cmd_argc st
  = parse w cmd_line c cmd_args cmd_argc (after_question c rest st).
Proof.
  intros Hcmd Hle Hopen Hc Hin Hans. fold avail_args in Hc.
  rewrite (parse_unrecognized_open w cmd_line cmd cmd_args cmd_argc st Hcmd Hle Hopen).
  unfold bind. rewrite (scan_first cmd avail_args c _ Hc).
  rewrite (ask_answered c answer rest) by exact Hin.
  rewrite (proj2 (eqb_true_iff _ _) (proj2 (lower_y answer) Hans)).
  rewrite (registered_truthy c (first_qualifying_in _ _ _ Hc)).
  cbn [retry_avail_ environ stdin trace].
  rewrite <- app_assoc. cbn [app].
  apply (parse_depth_registered w 998). now apply (first_qualifying_in cmd).
Qed.

(** X7: the same mistyped command ends with nothing dispatched when the
    answer is anything but "y" or "Y" — the empty line included, the
    prompt's "Y/n" notwithstanding —, when no registry name qualifies, and,
    with [EOFError], when there is no answer to read. *)
Theorem declined_suggestion_dispatches_nothing
    (w : World) (cmd_line : list string) (cmd : string)
    (cmd_args : list string) (cmd_argc : Z) (st : State) :
  cmd ∉ dispatchable -> cmd_argc <= 1 -> retry_avail_ st = true ->
  (forall c answer rest,
      first_qualifying cmd (map field AvailableParams) c ->
      stdin st = answer :: rest -> answer <> "y" -> answer <> "Y" ->
      parse w cmd_line cmd cmd_args cmd_argc st
      = (Ret tt, after_question c rest st))
  /\ (Forall (fun c => ~ qualifies cmd c) (map field AvailableParams) ->
      parse w cmd_line cmd cmd_args cmd_argc st
      = (Ret tt,
         mkState false (environ st) (stdin st)
                 (trace st ++ [EvPrint usage_str; EvPrint nl; EvPrint ""])))
  /\ (forall c,
        first_qualifying cmd (map field AvailableParams) c ->
        stdin st = [] ->
        parse w cmd_line cmd cmd_args cmd_argc st
        = (Raise EOFError,
           mkState false (environ st) []
                   (trace st ++ [EvPrint usage_str; EvPrint nl;
                                 EvPrintStyle (proceed_prompt c);
                                 EvInput ""]))).
Proof.
  intros Hcmd Hle Hopen.
  rewrite (parse_unrecognized_open w cmd_line cmd cmd_args cmd_argc st Hcmd Hle Hopen).
  fold avail_args. unfold bind.
  split; [| split].
  - intros c answer rest Hc Hin Hy HY.
    rewrite (scan_first cmd avail_args c _ Hc).
    rewrite (ask_answered c answer rest) by exact Hin.
    assert (Hno : Str.eqb (Str.lower answer) "y" = false).
    { apply eqb_false_iff. intros H. apply lower_y in H. tauto. }
    rewrite Hno. unfold ret, after_question.
    cbn [retry_avail_ environ stdin trace]. now rewrite <- app_assoc.
  - intros Hall. rewrite (scan_none cmd avail_args _ Hall).
    unfold ret, log. cbn [retry_avail_ environ stdin trace].
    now rewrite <- app_assoc.
  - intros c Hc Hin.
    rewrite (scan_first cmd avail_args c _ Hc).
    rewrite ask_at_end_of_input by exact Hin.
    cbn [retry_avail_ environ stdin trace]. now rewrite <- app_assoc.
Qed.

(** ** The clean action, asking *)

Lemma do_if_prompted_launching (w : World) (cmd msg a : string)
    (rest : list string) (st : State) :
  (forall h c, spawn w h c <> LaunchFailed) ->
  stdin st = a :: rest ->
  do_if w cmd msg true st
  = (Ret tt,
     mkState (retry_avail_ st) (environ st) rest
             (trace st ++ EvInput (msg +:+ " Ok? ")
                :: (if accepts a then [EvRun (Argv (Str.split cmd))] else []))).
Proof.
  intros Hw Hin. rewrite (do_if_prompted w cmd msg a rest st Hin).
  unfold accepts.
  destruct (Str.eqb (Str.lower a) ""), (Str.eqb (Str.lower a) "y");
    cbn [negb andb orb]; unfold sp_run;
    try (destruct (spawn w _ _) as [code |] eqn:S; [| now destruct (Hw _ _ S)]);
    unfold log, set_stdin; cbn [retry_avail_ environ stdin trace];
    now rewrite <- ?app_assoc.
Qed.

(** X8: asked to confirm, the clean action puts two separate questions,
    one per removal, and each answer decides its own removal only: with
    [rm] available and two answers on standard input, the commands started
    are [rm -rf build] if the first answer is empty, "y" or "Y", then
    [rm -f build.log] if the second is; the run ends normally either way. *)
Theorem do_clean_asks_per_removal
    (w : World) (a1 a2 : string) (rest : list string) (st : State) :
  (forall h c, spawn w h c <> LaunchFailed) ->
  stdin st = a1 :: a2 :: rest ->
  (do_clean w true st).1 = Ret tt
  /\ stdin (do_clean w true st).2 = rest
  /\ spawns (emitted st (do_clean w true st).2)
     = (if accepts a1 then [EvRun (Argv ["rm"; "-rf"; "build"])] else [])
       ++ (if accepts a2 then [EvRun (Argv ["rm"; "-f"; "build.log"])] else []).
Proof.
  intros Hw Hin. unfold do_clean.
  rewrite (bind_Ret _ _ _ _ _
             (do_if_prompted_launching w _ _ a1 (a2 :: rest) st Hw Hin)).
  match goal with
  | |- context [bind _ _ ?st1] =>
      rewrite (bind_Ret _ _ _ _ _
                 (do_if_prompted_launching w _ _ a2 rest st1 Hw eq_refl))
  end.
  unfold print_style, emit, log. cbn [fst snd retry_avail_ environ stdin trace].
  split; [reflexivity |]. split; [reflexivity |].
  erewrite emitted_app by (cbn [trace]; rewrite <- !app_assoc; reflexivity).
  destruct (accepts a1), (accepts a2); reflexivity.
Qed.

(** ** Configuration, once more *)

(** X9: a configuration attempt never raises and never exits; it returns
    a boolean, and that is [True] exactly when the checked installer call
    exits with 0, its repetition can be started, the checked generator call
    exits with 0, and its repetition can be started.  The exit statuses of
    the two repetitions play no part. *)
Theorem do_config_cmd_succeeds_iff
    (w : World) (compiler_matrix : string * string) (st : State) :
  (do_config_cmd w compiler_matrix st).1
  = Ret (checked_ok (spawn w (attempt_start st compiler_matrix)
                           (Argv conan_install_command))
         && launched (spawn w (attempt_start st compiler_matrix
                               ++ [EvCheckCall (Argv conan_install_command)])
                            (Argv conan_install_command))
         && checked_ok (spawn w (attempt_start st compiler_matrix
                                 ++ [EvCheckCall (Argv conan_install_command);
                                     EvRun (Argv conan_install_command)])
                              (Argv (cmake_command compiler_matrix)))
         && launched (spawn w (attempt_start st compiler_matrix
                               ++ [EvCheckCall (Argv conan_install_command);
                                   EvRun (Argv conan_install_command);
                                   EvCheckCall (Argv (cmake_command compiler_matrix))])
                            (Argv (cmake_command compiler_matrix)))).
Proof.
  unfold do_config_cmd, attempt_start.
  generalize (Argv conan_install_command) (Argv (cmake_command compiler_matrix)).
  intros conan cmake.
  unfold bind, try_except, setenv, print_style, emit, sp_check_call, sp_run, ret,
    checked_ok, launched.
  cbn [log set_environ trace fst snd].
  rewrite <- !app_assoc. cbn [app].
  repeat (case_spawn; cbn [log set_environ trace fst snd andb];
          rewrite <- ?app_assoc; cbn [app]; try reflexivity).
Qed.

Lemma do_config_cmd_environ (w : World) (cm : string * string) (st : State) :
  environ (do_config_cmd w cm st).2
  = <["CXX" := snd cm]> (<["CC" := fst cm]> (environ st)).
Proof.
  unfold do_config_cmd.
  generalize (Argv conan_install_command) (Argv (cmake_command cm)).
  intros conan cmake.
  unfold bind, try_except, setenv, print_style, emit, sp_check_call, sp_run, ret.
  cbn [log trace fst snd].
  repeat case_spawn; reflexivity.
Qed.

Lemma environ_after_attempt (w : World) (cm : string * string) (st : State) :
  environ (do_config_cmd w cm st).2 !! "CC" = Some (fst cm)
  /\ environ (do_config_cmd w cm st).2 !! "CXX" = Some (snd cm).
Proof.
  rewrite do_config_cmd_environ. split.
  - rewrite lookup_insert_ne by discriminate. apply lookup_insert_eq.
  - apply lookup_insert_eq.
Qed.

(** X10: when configuration is over, [CC] and [CXX] name the pair tried
    last: gcc-11 and g++-11 when the first attempt worked, gcc and g++ when
    the second one had to be made, whether it worked or the process is
    about to exit with -1. *)
Theorem do_config_leaves_last_toolchain_exported (w : World) (st : State) :
  ((do_config w st).1 = Ret tt
   /\ failed_attempts (emitted st (do_config w st).2) = 0%nat
   /\ environ (do_config w st).2 !! "CC" = Some "gcc-11"
   /\ environ (do_config w st).2 !! "CXX" = Some "g++-11")
  \/ ((((do_config w st).1 = Ret tt
         /\ failed_attempts (emitted st (do_config w st).2) = 1%nat)
       \/ ((do_config w st).1 = SysExit (-1)
           /\ failed_attempts (emitted st (do_config w st).2) = 2%nat))
      /\ environ (do_config w st).2 !! "CC" = Some "gcc"
      /\ environ (do_config w st).2 !! "CXX" = Some "g++").
Proof.
  unfold do_config.
  destruct (do_config_mkdir_step w st) as (e & st0 & Hmk & Htr0 & He & _).
  rewrite (bind_Ret _ _ _ _ _ Hmk).
  assert (Hf0 : failed_attempts [EvMkdir "build/"; e] = 0%nat)
    by (destruct He as [-> | ->]; reflexivity).
  destruct (do_config_cmd_attempt w ("gcc-11", "g++-11") st0)
    as (b1 & evs1 & st1 & Hrun1 & Htr1 & _ & _ & Hfail1 & _).
  destruct (environ_after_attempt w ("gcc-11", "g++-11") st0) as [Hcc1 Hcxx1].
  rewrite Hrun1 in Hcc1, Hcxx1. cbn [snd fst] in Hcc1, Hcxx1.
  rewrite (bind_Ret _ _ _ _ _ Hrun1).
  destruct b1; cbn [negb].
  - left. unfold ret. cbn [fst snd].
    rewrite (emitted_app st st1 ([EvMkdir "build/"; e] ++ evs1))
      by (rewrite Htr1, Htr0; now rewrite <- app_assoc).
    rewrite failed_attempts_app, Hf0, Hfail1. auto.
  - right.
    destruct (do_config_cmd_attempt w ("gcc", "g++") st1)
      as (b2 & evs2 & st2 & Hrun2 & Htr2 & _ & _ & Hfail2 & _).
    destruct (environ_after_attempt w ("gcc", "g++") st1) as [Hcc2 Hcxx2].
    rewrite Hrun2 in Hcc2, Hcxx2. cbn [snd fst] in Hcc2, Hcxx2.
    rewrite (bind_Ret _ _ _ _ _ Hrun2).
    assert (Hev : emitted st st2 = [EvMkdir "build/"; e] ++ evs1 ++ evs2).
    { apply emitted_app. rewrite Htr2, Htr1, Htr0. now rewrite <- !app_assoc. }
    destruct b2; cbn [negb]; unfold ret, sys_exit; cbn [fst snd];
      rewrite Hev, !failed_attempts_app, Hf0, Hfail1, Hfail2; auto.
Qed.

(** ** [test] *)

Lemma parse_test (w : World) self cmd_line cmd_args cmd_argc st :
  parse_body w self cmd_line "test" cmd_args cmd_argc st
  = bind (assert_ (cmd_argc <=? 1) "")
      (fun _ => bind (do_build w true false)
         (fun _ => bind (sole_arg_has "run" cmd_args cmd_argc)
            (fun run => if run then do_run_test w else ret tt))) st.
Proof. reflexivity. Qed.

Lemma do_build_tests_after_config (w : World) (code : Z) (st st1 : State) :
  do_config w st = (Ret tt, st1) ->
  spawn w (trace st1 ++ [test_flag_set; EvPrintStyle "Building project and tests"])
        (Argv (Str.split ninja_command)) = Exited code ->
  do_build w true false st
  = (Ret tt,
     mkState (retry_avail_ st1) (<["EUGENE_BUILD_TESTS" := "1"]> (environ st1))
             (stdin st1)
             (trace st1 ++ [test_flag_set;
                            EvPrintStyle "Building project and tests";
                            ninja_run])).
Proof.
  intros Hcfg Hninja. unfold do_build.
  rewrite (bind_Ret _ _ _ _ _ Hcfg).
  unfold bind, setenv, print_style, emit, sp_run, ninja_run, test_flag_set in *.
  cbn [log set_environ trace fst snd environ retry_avail_ stdin] in *.
  change ("Building project" +:+ " and tests") with "Building project and tests".
  rewrite <- !app_assoc. cbn [app]. rewrite Hninja.
  unfold ret, log. cbn [retry_avail_ environ stdin trace].
  now rewrite <- !app_assoc.
Qed.

(** X11: [test] builds with the test flag set whether or not a
    sub-argument follows, and with a sub-argument containing "run" it goes
    on to start the test run whatever status the build exited with: once
    configuration has succeeded and the build tool has been started, the
    console and process history is flag, announcement, build, and then,
    for "run", the test run. *)
Theorem test_builds_with_flag_then_runs
    (w : World) (cmd_line : list string) (sub : string) (code : Z)
    (st st1 : State) :
  do_config w st = (Ret tt, st1) ->
  spawn w (trace st1 ++ [test_flag_set; EvPrintStyle "Building project and tests"])
        (Argv (Str.split ninja_command)) = Exited code ->
  trace (parse w cmd_line "test" [] 0 st).2
  = trace st1 ++ [test_flag_set; EvPrintStyle "Building project and tests";
                  ninja_run]
  /\ trace (parse w cmd_line "test" [sub] 1 st).2
     = trace st1 ++ [test_flag_set; EvPrintStyle "Building project and tests";
                     ninja_run]
       ++ (if Str.contains "run" sub
           then [EvPrintStyle "Running tests"; ctest_run] else [])
  /\ environ (parse w cmd_line "test" [] 0 st).2 !! "EUGENE_BUILD_TESTS" = Some "1"
  /\ environ (parse w cmd_line "test" [sub] 1 st).2 !! "EUGENE_BUILD_TESTS"
     = Some "1".
Proof.
  intros Hcfg Hninja.
  pose proof (do_build_tests_after_config w code st st1 Hcfg Hninja) as Hb.
  rewrite !parse_unfold, !parse_test.
  assert (H0 : assert_ (0 <=? 1) "" st = (Ret tt, st)) by reflexivity.
  assert (H1 : assert_ (1 <=? 1) "" st = (Ret tt, st)) by reflexivity.
  rewrite (bind_Ret _ _ _ _ _ H0), (bind_Ret _ _ _ _ _ H1).
  rewrite !(bind_Ret _ _ _ _ _ Hb).
  rewrite (bind_Ret _ _ _ _ _ (sole_arg_has_one "run" sub _)).
  assert (Hnone : forall s, sole_arg_has "run" [] 0 s = (Ret false, s))
    by reflexivity.
  rewrite (bind_Ret _ _ _ _ _ (Hnone _)).
  unfold ret. cbn [fst snd trace environ].
  split; [reflexivity |].
  split; [| split; [apply lookup_insert_eq |]].
  - destruct (Str.contains "run" sub); [| now rewrite app_nil_r].
    unfold do_run_test, bind, print_style, emit, sp_run, ctest_run.
    cbn [log trace fst snd].
    case_spawn; cbn [log trace fst snd]; now rewrite <- !app_assoc.
  - destruct (Str.contains "run" sub); [| apply lookup_insert_eq].
    unfold do_run_test, bind, print_style, emit, sp_run.
    cbn [log trace fst snd].
    case_spawn; cbn [log environ fst snd]; apply lookup_insert_eq.
Qed.

(** ** Letter case *)

Lemma lower_char_idem (c : ascii) :
  Str.lower_char (Str.lower_char c) = Str.lower_char c.
Proof. destruct c as [[] [] [] [] [] [] [] []]; reflexivity. Qed.

Lemma lower_idem (s : string) : Str.lower (Str.lower s) = Str.lower s.
Proof.
  induction s as [| c s IH]; [reflexivity |].
  simpl. now rewrite lower_char_idem, IH.
Qed.

(** X12: the command line is case-insensitive throughout: a run on any
    spelling of its tokens is the run on their lower-case spelling. *)
Theorem main_ignores_letter_case (w : World) (argv : list string) (st : State) :
  main w argv st = main w (map Str.lower argv) st.
Proof.
  assert (H : map Str.lower (map Str.lower argv) = map Str.lower argv).
  { rewrite map_map. apply map_ext. intros s. apply lower_idem. }
  unfold main. rewrite H, length_map. reflexivity.
Qed.

(** ** Tokens no name can match *)

Lemma lev_nil_l (s : string) : lev "" s = Str.len s.
Proof. now destruct s. Qed.

Lemma lev_nil_r (s : string) : lev s "" = Str.len s.
Proof. now destruct s. Qed.

Lemma lev_cons_cons (c1 c2 : ascii) (t1 t2 : string) :
  lev (String c1 t1) (String c2 t2)
  = Nat.min (lev t1 (String c2 t2) + 1)
      (Nat.min (lev (String c1 t1) t2 + 1)
               (lev t1 t2 + (if Ascii.eqb c1 c2 then 0 else 1)))%nat.
Proof. reflexivity. Qed.

(** An edit distance is at least the difference of the lengths. *)
Lemma lev_length_gap (a b : string) :
  (Str.len a <= lev a b + Str.len b)%nat
  /\ (Str.len b <= lev a b + Str.len a)%nat.
Proof.
  revert b. induction a as [| c1 t1 IHa]; intros b.
  - rewrite lev_nil_l. change (Str.len "") with 0%nat. lia.
  - induction b as [| c2 t2 IHb].
    + rewrite lev_nil_r. change (Str.len "") with 0%nat. lia.
    + rewrite lev_cons_cons.
      pose proof (IHa (String c2 t2)) as H1.
      pose proof (IHa t2) as H2.
      change (Str.len (String c1 t1)) with (S (Str.len t1)) in *.
      change (Str.len (String c2 t2)) with (S (Str.len t2)) in *.
      destruct (Ascii.eqb c1 c2); lia.
Qed.

Lemma qualifies_lengths (arg cand : string) :
  qualifies arg cand ->
  (Str.len arg <= 2 * Str.len cand)%nat
  /\ (2 * Str.len cand <= 3 * Str.len arg)%nat.
Proof.
  unfold qualifies. intros H.
  destruct (lev_length_gap arg cand). lia.
Qed.

(** X13: a name can only be offered for a token between half and double
    its own length (more exactly: the token at most twice as long as the
    name, the name at most one and a half times as long as the token).  The
    registry's names having three to five letters, a token of fewer than
    two or more than ten characters is offered nothing: the matcher prints
    its empty line and returns [None]. *)
Theorem tokens_too_short_or_long_get_no_suggestion
    (arg : string) (st : State) :
  retry_avail_ st = true ->
  (forall cand,
      offered (emitted st (autocomplete arg st).2) cand ->
      (Str.len arg <= 2 * Str.len cand)%nat
      /\ (2 * Str.len cand <= 3 * Str.len arg)%nat)
  /\ ((Str.len arg < 2)%nat \/ (10 < Str.len arg)%nat ->
      autocomplete arg st = (Ret PyNone, log (EvPrint "") (set_retry false st))).
Proof.
  intros Hopen. split.
  - intros cand Hoff.
    destruct (autocomplete_open_cases arg st Hopen)
      as [(_ & _ & Hev) | (c & tail & Hfirst & Hev & Htail & _)];
      rewrite Hev in Hoff.
    + apply list_elem_of_singleton in Hoff. discriminate Hoff.
    + apply (offered_ask_tail c cand tail Htail) in Hoff. subst cand.
      destruct Hfirst as (_ & _ & _ & Q & _). now apply qualifies_lengths.
  - intros Hlen. rewrite (autocomplete_open arg st Hopen).
    apply scan_none.
    change avail_args with ["build"; "test"; "lint"; "doc"; "clean"].
    apply Forall_forall. intros c Hc Q.
    apply qualifies_lengths in Q.
    rewrite !elem_of_cons, elem_of_nil in Hc.
    destruct Hc as [-> | [-> | [-> | [-> | [-> | []]]]]];
      cbn [Str.len String.length] in Q; lia.
Qed.

(** ** Colours *)

Lemma choice_in_colors (r : nat) : choice colors r ∈ colors.
Proof.
  unfold choice, colors. cbn [length].
  pose proof (Nat.mod_upper_bound r 5 ltac:(discriminate)) as H.
  destruct (r mod 5)%nat as [| [| [| [| [| n]]]]]; cbn [nth];
    rewrite !elem_of_cons; auto 6. lia.
Qed.

Lemma get_color_result (draws : list nat) (previous_color_ c : Color)
    (rest : list nat) :
  get_color draws previous_color_ = Some (c, rest) ->
  c <> previous_color_ /\ c ∈ colors.
Proof.
  induction draws as [| r draws IH]; [discriminate |].
  cbn [get_color]. case_bool_decide as Hd.
  - intros [= <- <-]. split; [exact Hd | apply choice_in_colors].
  - exact IH.
Qed.

(** X14: [get_color] never hands out the colour it handed out last, so
    two consecutive console lines are never tinted alike; what it hands
    out is one of the five colours of its list, never white (the initial
    [previous_color_]) nor red; and it keeps drawing exactly as long as the
    draws repeat the previous colour. *)
Theorem get_color_changes_colour
    (draws : list nat) (previous_color_ : Color) :
  (forall c rest,
      get_color draws previous_color_ = Some (c, rest) ->
      c <> previous_color_ /\ c ∈ colors /\ c <> WHITE /\ c <> RED
      /\ (forall c' rest', get_color rest c = Some (c', rest') -> c' <> c))
  /\ (get_color draws previous_color_ = None
      <-> Forall (fun r => choice colors r = previous_color_) draws)
  /\ (forall r rest, get_color (r :: rest) WHITE = Some (choice colors r, rest)).
Proof.
  split; [| split].
  - intros c rest H. apply get_color_result in H as [Hne Hin].
    split; [exact Hne |]. split; [exact Hin |].
    split; [| split].
    + intros ->. unfold colors in Hin. rewrite !elem_of_cons, elem_of_nil in Hin.
      repeat destruct Hin as [Hin | Hin]; try discriminate Hin; exact Hin.
    + intros ->. unfold colors in Hin. rewrite !elem_of_cons, elem_of_nil in Hin.
      repeat destruct Hin as [Hin | Hin]; try discriminate Hin; exact Hin.
    + intros c' rest' H'. now apply get_color_result in H' as [H' _].
  - induction draws as [| r draws IH]; cbn [get_color].
    + split; [constructor | reflexivity].
    + case_bool_decide as Hd.
      * split; [discriminate |]. intros H. apply Forall_cons in H as [H _].
        now destruct Hd.
      * rewrite IH. split; [intros H; constructor; [| exact H] |
                            intros H; now apply Forall_cons in H as [_ H]].
        destruct (decide (choice colors r = previous_color_)) as [E | E];
          [exact E | now destruct Hd].
  - intros r rest. cbn [get_color].
    rewrite bool_decide_eq_true_2; [reflexivity |].
    intros E. pose proof (choice_in_colors r) as Hin.
    rewrite E in Hin. unfold colors in Hin.
    rewrite !elem_of_cons, elem_of_nil in Hin.
    repeat destruct Hin as [Hin | Hin]; try discriminate Hin; exact Hin.
Qed.

(** ** Installing what is missing *)

Lemma words_go_space (sp : ascii) (s t : string) (cur : option string) :
  Ascii.is_space sp = true ->
  String.words_go cur (s +:+ String sp t)
  = String.words_go cur s ++ String.words_go None t.
Proof.
  intros Hsp. revert cur. induction s as [| a s IH]; intros cur.
  - change ("" +:+ String sp t) with (String sp t).
    cbn [String.words_go]. now rewrite Hsp.
  - change (String a s +:+ String sp t) with (String a (s +:+ String sp t)).
    cbn [String.words_go]. destruct (Ascii.is_space a).
    + now rewrite IH, app_assoc.
    + apply IH.
Qed.

(** [f"{pip} install {req}".split()] is the words of [pip], then
    "install", then the words of [req]. *)
Lemma split_install (pip req : string) :
  Str.split (pip +:+ " install " +:+ req)
  = Str.split pip ++ "install" :: Str.split req.
Proof.
  unfold Str.split, String.words.
  change (" install " +:+ req) with (String " " ("install" +:+ String " " req)).
  rewrite (words_go_space " " pip _ None eq_refl).
  now rewrite (words_go_space " " "install" req None eq_refl).
Qed.

Lemma sp_run_launching (w : World) (c : Cmd) (st : State) :
  (forall h c, spawn w h c <> LaunchFailed) ->
  sp_run w c st = (Ret tt, log (EvRun c) st).
Proof.
  intros Hw. unfold sp_run.
  destruct (spawn w (trace st) c) eqn:S; [reflexivity | now destruct (Hw _ _ S)].
Qed.

(** X15: [setup] runs one install per missing module, for cmake-format,
    colorama and pylev in this order, each announced on the console first;
    the words of the [pip] spelling it was given come first in each
    argument vector, so a spelling of several words becomes several
    arguments.  As long as the installer can be started, a failing install
    stops nothing. *)
Theorem setup_installs_three_modules (w : World) (pip : string) (st : State) :
  (forall h c, spawn w h c <> LaunchFailed) ->
  (setup w pip st).1 = Ret tt
  /\ emitted st (setup w pip st).2
     = [ EvPrint (pip +:+ " install cmake-format");
         EvRun (Argv (Str.split pip ++ ["install"; "cmake-format"]));
         EvPrint (pip +:+ " install colorama");
         EvRun (Argv (Str.split pip ++ ["install"; "colorama"]));
         EvPrint (pip +:+ " install pylev");
         EvRun (Argv (Str.split pip ++ ["install"; "pylev"])) ].
Proof.
  intros Hw. unfold setup. cbn [setup_loop]. unfold bind, print, emit.
  rewrite !split_install.
  repeat (rewrite (sp_run_launching w _ _ Hw); cbn [fst snd]).
  unfold ret. cbn [fst snd]. split; [reflexivity |].
  apply emitted_app. cbn [log trace]. now rewrite <- !app_assoc.
Qed.

(** X16: offered the installation, the user has to answer "y" or "Y" for
    anything to be installed: every other answer, the empty line included,
    ends the process with status 0 before any child process is started.
    After a yes, a second line gives the spelling of pip, the empty line
    standing for "pip", and [setup] runs with it. *)
Theorem install_missing_needs_a_yes (w : World) (st : State) :
  (forall answer rest,
      stdin st = answer :: rest -> answer <> "y" -> answer <> "Y" ->
      install_missing w st
      = (SysExit 0,
         set_stdin rest (log (EvInput "Install missing modules? Y/n ") st)))
  /\ (forall answer pip_cand rest,
        stdin st = answer :: pip_cand :: rest ->
        answer = "y" \/ answer = "Y" ->
        install_missing w st
        = setup w (if Str.eqb pip_cand "" then "pip" else pip_cand)
            (mkState (retry_avail_ st) (environ st) rest
               (trace st
                ++ [EvInput "Install missing modules? Y/n ";
                    EvInput "How is `pip` spelled - pip2, pip3, etc.? [default: `pip`] ";
                    EvPrint ("Entered '" +:+ pip_cand +:+ "'")]))).
Proof.
  split.
  - intros answer rest Hin Hy HY.
    unfold install_missing, bind, input. cbn [log stdin]. rewrite Hin.
    assert (Hno : Str.eqb (Str.lower answer) "y" = false).
    { apply eqb_false_iff. intros H. apply lower_y in H. tauto. }
    rewrite Hno. reflexivity.
  - intros answer pip_cand rest Hin Hans.
    unfold install_missing, bind, input, print, emit.
    cbn [log stdin]. rewrite Hin.
    rewrite (proj2 (eqb_true_iff _ _) (proj2 (lower_y answer) Hans)).
    unfold log, set_stdin. cbn [negb stdin trace retry_avail_ environ].
    rewrite <- !app_assoc. cbn [app].
    destruct (Str.eqb pip_cand ""); reflexivity.
Qed.

(** ** How a run can end *)

Lemma fo_ret {A} E X (a : A) : fails_only E X (ret a).
Proof. intros st. exact I. Qed.

Lemma fo_raise {A} E X (e : Exn) : E e = true -> fails_only E X (@raise A e).
Proof. intros H st. exact H. Qed.

Lemma fo_sys_exit {A} E X (c : Z) : X c = true -> fails_only E X (@sys_exit A c).
Proof. intros H st. exact H. Qed.

Lemma fo_bind {A B} E X (m : M A) (k : A -> M B) :
  fails_only E X m -> (forall a, fails_only E X (k a)) ->
  fails_only E X (bind m k).
Proof.
  intros Hm Hk st. unfold bind. specialize (Hm st).
  destruct (m st) as [[a | e | c] st']; simpl in *; [apply Hk | exact Hm | exact Hm].
Qed.

(** A bare [except] lets nothing of the body through. *)
Lemma fo_try_except {A} E X (body handler : M A) :
  fails_only E X handler -> fails_only E X (try_except body handler).
Proof.
  intros Hh st. unfold try_except.
  destruct (body st) as [[a | e | c] st']; simpl; [exact I | apply Hh | apply Hh].
Qed.

Lemma fo_try_except_OSError {A} E X (body handler : M A) :
  fails_only (or_OSError E) X body -> fails_only E X handler ->
  fails_only E X (try_except_OSError body handler).
Proof.
  intros Hb Hh st. unfold try_except_OSError. specialize (Hb st).
  destruct (body st) as [[a | e | c] st']; simpl in *; [exact I | | exact Hb].
  destruct e; try apply Hh; unfold or_OSError in Hb;
    rewrite orb_false_r in Hb; exact Hb.
Qed.

Lemma fo_assert E X (cond : bool) (msg : string) :
  E (AssertionError msg) = true -> fails_only E X (assert_ cond msg).
Proof. intros H st. destruct cond; [exact I | exact H]. Qed.

Lemma fo_emit E X (e : Event) : fails_only E X (emit e).
Proof. intros st. exact I. Qed.

Lemma fo_setenv E X (k v : string) : fails_only E X (setenv k v).
Proof. intros st. exact I. Qed.

Lemma fo_input E X (prompt : string) :
  E EOFError = true -> fails_only E X (input prompt).
Proof. intros H st. unfold input. cbn [log stdin]. destruct (stdin st); [exact H | exact I]. Qed.

Lemma fo_os_mkdir E X (w : World) (path : string) :
  E OSError = true -> fails_only E X (os_mkdir w path).
Proof. intros H st. unfold os_mkdir. destruct (mkdir_ok _ _ _); [exact I | exact H]. Qed.

Lemma fo_sp_run E X (w : World) (c : Cmd) :
  E OSError = true -> fails_only E X (sp_run w c).
Proof. intros H st. unfold sp_run. destruct (spawn _ _ _); [exact I | exact H]. Qed.

Lemma fo_autocomplete_scan E X (arg : string) (names : list string) :
  E EOFError = true -> fails_only E X (autocomplete_scan arg names).
Proof.
  intros H. induction names as [| x names IH]; simpl.
  - apply fo_bind; [apply fo_emit | intros; apply fo_ret].
  - destruct (within_required _ _); [| exact IH].
    apply fo_bind; [apply fo_emit | intros _].
    apply fo_bind; [now apply fo_input | intros answer].
    destruct (Str.eqb _ _);
      (apply fo_bind; [apply fo_emit | intros; apply fo_ret]).
Qed.

Lemma fo_autocomplete E X (arg : string) :
  E EOFError = true -> fails_only E X (autocomplete arg).
Proof.
  intros H st. unfold autocomplete.
  destruct (retry_avail_ st); cbn [negb]; [| exact I].
  now apply fo_autocomplete_scan.
Qed.

Ltac fo_step :=
  lazymatch goal with
  | |- fails_only _ _ (bind _ _) => apply fo_bind; [| intros ?]
  | |- fails_only _ _ (try_except _ _) => apply fo_try_except
  | |- fails_only _ _ (try_except_OSError _ _) => apply fo_try_except_OSError
  | |- fails_only _ _ (ret _) => apply fo_ret
  | |- fails_only _ _ (raise _) => apply fo_raise; reflexivity
  | |- fails_only _ _ (sys_exit _) => apply fo_sys_exit; reflexivity
  | |- fails_only _ _ (assert_ _ _) => apply fo_assert; reflexivity
  | |- fails_only _ _ (print _) => apply fo_emit
  | |- fails_only _ _ (print_style _) => apply fo_emit
  | |- fails_only _ _ (emit _) => apply fo_emit
  | |- fails_only _ _ (input _) => apply fo_input; reflexivity
  | |- fails_only _ _ (setenv _ _) => apply fo_setenv
  | |- fails_only _ _ (os_mkdir _ _) => apply fo_os_mkdir; reflexivity
  | |- fails_only _ _ (sp_run _ _) => apply fo_sp_run; reflexivity
  | |- fails_only _ _ (autocomplete _) => apply fo_autocomplete; reflexivity
  | |- fails_only _ _ (first_arg (_ :: _)) => apply fo_ret
  | |- fails_only _ _ (do_if _ _ _ _) => unfold do_if
  | |- fails_only _ _ (do_clean _ _) => unfold do_clean
  | |- fails_only _ _ (do_config_cmd _ _) => unfold do_config_cmd
  | |- fails_only _ _ (do_config _) => unfold do_config
  | |- fails_only _ _ (do_build _ _ _) => unfold do_build
  | |- fails_only _ _ (do_run_test _) => unfold do_run_test
  | |- fails_only _ _ (do_lint _) => unfold do_lint
  | |- fails_only _ _ do_updoc => unfold do_updoc
  | |- fails_only _ _ usage => unfold usage
  | |- fails_only _ _ (sole_arg_has _ _ _) => unfold sole_arg_has
  | |- fails_only _ _ (clean_forced _ _) => unfold clean_forced
  | |- fails_only _ _ (clean_kind _ _) => unfold clean_kind
  | |- fails_only ?E ?X (if ?b then ?x else ?y) =>
      let v := eval vm_compute in b in
      lazymatch v with
      | true => change (fails_only E X x)
      | false => change (fails_only E X y)
      | _ => destruct b
      end
  | |- fails_only _ _ (match ?x with _ => _ end) => destruct x
  | |- fails_only _ _ _ => solve [auto]
  end.

Ltac fo_walk := repeat fo_step.

(** The dispatcher with the sub-arguments and the count that [main] gives
    it when at most one token follows the command. *)
Lemma fo_parse_body (w : World) self cmd_line cmd cmd_args cmd_argc :
  (cmd_args = [] /\ cmd_argc = 0) \/ (exists x, cmd_args = [x] /\ cmd_argc = 1) ->
  (forall l c, fails_only escaping gave_up (self l c cmd_args cmd_argc)) ->
  fails_only escaping gave_up (parse_body w self cmd_line cmd cmd_args cmd_argc).
Proof.
  intros [[-> ->] | (x & -> & ->)] Hself; unfold parse_body; fo_walk.
Qed.

Lemma ends_well_escaping {A} (o : Outcome A) :
  ends_well escaping gave_up o ->
  match o with
  | Ret _ => True
  | SysExit c => c = -1
  | Raise e => e = EOFError \/ e = OSError \/ exists msg, e = AssertionError msg
  end.
Proof.
  destruct o as [a | e | c]; simpl; [trivial | |].
  - destruct e; intros H; try discriminate H; eauto.
  - unfold gave_up. apply Z.eqb_eq.
Qed.

Lemma parse_consistent_ends_well (w : World) cmd_line cmd cmd_args cmd_argc st :
  (cmd_args = [] /\ cmd_argc = 0) \/ (exists x, cmd_args = [x] /\ cmd_argc = 1) ->
  ends_well escaping gave_up (parse w cmd_line cmd cmd_args cmd_argc st).1.
Proof.
  intros Hargs.
  rewrite (parse_total w (fun _ _ _ _ => ret tt)).
  apply fo_parse_body; [exact Hargs |].
  intros l c. apply fo_parse_body; [exact Hargs |].
  intros l' c'. apply fo_ret.
Qed.

(** X17: a run ends in one of few ways: normally; through [sys.exit] with
    0 (no command given) or -1 (configuration given up); or with an
    [AssertionError], an [EOFError] or an [OSError].  The
    [CalledProcessError] of a checked call never leaves the configuration
    attempt, the sub-argument is never indexed when there is none, and the
    dispatcher's call of itself never runs away. *)
Theorem main_ends_in_few_ways (w : World) (argv : list string) (st : State) :
  match (main w argv st).1 with
  | Ret _ => True
  | SysExit c => c = 0 \/ c = -1
  | Raise e => e = EOFError \/ e = OSError \/ exists msg, e = AssertionError msg
  end.
Proof.
  destruct argv as [| prog [| cmd rest]].
  - cbn. now left.
  - cbn. now left.
  - rewrite main_dispatches.
    destruct rest as [| x [| y rest]].
    + pose proof (parse_consistent_ends_well w (map Str.lower [cmd])
                    (Str.lower cmd) [] 0 st (or_introl (conj eq_refl eq_refl)))
        as H.
      apply ends_well_escaping in H. cbn [map length Z.of_nat] in *.
      destruct (parse w _ _ _ _ st).1; auto.
    + pose proof (parse_consistent_ends_well w (map Str.lower [cmd; x])
                    (Str.lower cmd) [Str.lower x] 1 st
                    (or_intror (ex_intro _ _ (conj eq_refl eq_refl)))) as H.
      apply ends_well_escaping in H.
      change (Z.of_nat (length [x])) with 1. cbn [map] in *.
      destruct (parse w _ _ _ _ st).1; auto.
    + rewrite parse_unfold, parse_body_extra_args; [cbn; eauto |].
      cbn [length]. lia.
Qed.

(** X18: the dispatcher calls itself at most once in a run: a name the
    matcher returns is a registered one, and every registered name has a
    branch of its own.  So any allowance of two or more nested calls gives
    the result of [parse]. *)
Theorem parse_redispatches_at_most_once
    (w : World) (n : nat) (cmd_line : list string) (cmd : string)
    (cmd_args : list string) (cmd_argc : Z) (st : State) :
  (2 <= n)%nat ->
  parse_depth w n cmd_line cmd cmd_args cmd_argc st
  = parse w cmd_line cmd cmd_args cmd_argc st.
Proof.
  intros Hn. destruct n as [| [| n]]; [lia | lia |].
  rewrite (parse_depth_two_suffices w n (fun _ _ _ _ => ret tt)).
  unfold parse, recursion_limit.
  now rewrite (parse_depth_two_suffices w 998 (fun _ _ _ _ => ret tt)).
Qed.

(** ** Instances of the further properties *)

Lemma biuld_not_dispatchable : "biuld" ∉ dispatchable.
Proof.
  unfold dispatchable. rewrite !not_elem_of_cons.
  repeat split; try discriminate. apply not_elem_of_nil.
Defined.

Lemma biuld_first_qualifies_build :
  first_qualifying "biuld" (map field AvailableParams) "build".
Proof.
  exists [], ["test"; "lint"; "doc"; "clean"].
  split; [reflexivity |]. split; [| constructor].
  unfold qualifies. vm_compute. lia.
Defined.

Lemma known_commands_bypass_the_matcher_witness :
  "version" ∈ dispatchable
  /\ retry_avail_ (parse world_ok ["version"] "version" [] 0 (fresh ∅ [])).2
     = retry_avail_ (fresh ∅ []).
Proof.
  assert (H : "version" ∈ dispatchable)
    by (unfold dispatchable; rewrite !elem_of_cons; auto 10).
  split; [exact H |].
  exact (proj2 (proj2 (known_commands_bypass_the_matcher world_ok ["version"]
                         "version" [] 0 (fresh ∅ []) H))).
Defined.

Lemma six_commands_never_prompt_witness :
  "lint" ∈ ["build"; "config"; "test"; "lint"; "doc"; "version"]
  /\ stdin (parse world_ok ["lint"] "lint" [] 0 (fresh ∅ ["n"])).2
     = stdin (fresh ∅ ["n"]).
Proof.
  assert (H : "lint" ∈ ["build"; "config"; "test"; "lint"; "doc"; "version"])
    by (rewrite !elem_of_cons; auto 10).
  split; [exact H |].
  exact (proj1 (six_commands_never_prompt world_ok ["lint"] "lint" [] 0
                  (fresh ∅ ["n"]) H)).
Defined.

Lemma run_writes_only_three_variables_witness :
  ("PATH" ∉ ["CC"; "CXX"; "EUGENE_BUILD_TESTS"])
  /\ environ (main world_ok ["eugene"; "build"; "test"]
                (fresh {["PATH" := "/usr/bin"]} [])).2 !! "PATH"
     = Some "/usr/bin".
Proof.
  assert (H : "PATH" ∉ ["CC"; "CXX"; "EUGENE_BUILD_TESTS"]).
  { rewrite !not_elem_of_cons. repeat split; try discriminate.
    apply not_elem_of_nil. }
  split; [exact H |].
  exact (proj1 (run_writes_only_three_variables world_ok
                  ["eugene"; "build"; "test"]
                  (fresh {["PATH" := "/usr/bin"]} []) "PATH" H)).
Defined.

Lemma plain_builds_leave_test_flag_witness :
  Str.contains "test" "doc" = false
  /\ environ (parse world_ok ["build"; "doc"] "build" ["doc"] 1 (fresh ∅ [])).2
       !! "EUGENE_BUILD_TESTS"
     = environ (fresh ∅ []) !! "EUGENE_BUILD_TESTS".
Proof.
  split; [reflexivity |].
  exact (proj2 (proj2 (plain_builds_leave_test_flag world_ok ["build"; "doc"]
                         "doc" (fresh ∅ []))) eq_refl).
Defined.

Lemma accepted_suggestion_is_dispatched_witness :
  ("biuld" ∉ dispatchable) /\ 0 <= 1
  /\ retry_avail_ (fresh ∅ ["y"]) = true
  /\ first_qualifying "biuld" (map field AvailableParams) "build"
  /\ stdin (fresh ∅ ["y"]) = ["y"]
  /\ parse world_ok ["biuld"] "biuld" [] 0 (fresh ∅ ["y"])
     = parse world_ok ["biuld"] "build" [] 0
         (after_question "build" [] (fresh ∅ ["y"])).
Proof.
  assert (Hle : 0 <= 1) by discriminate.
  split; [exact biuld_not_dispatchable |]. split; [exact Hle |].
  split; [reflexivity |]. split; [exact biuld_first_qualifies_build |].
  split; [reflexivity |].
  exact (accepted_suggestion_is_dispatched world_ok ["biuld"] "biuld" "build"
           [] 0 "y" [] (fresh ∅ ["y"]) biuld_not_dispatchable Hle eq_refl
           biuld_first_qualifies_build eq_refl (or_introl eq_refl)).
Defined.

Lemma declined_suggestion_dispatches_nothing_witness :
  ("biuld" ∉ dispatchable) /\ 0 <= 1
  /\ retry_avail_ (fresh ∅ [""]) = true
  /\ parse world_ok ["biuld"] "biuld" [] 0 (fresh ∅ [""])
     = (Ret tt, after_question "build" [] (fresh ∅ [""])).
Proof.
  assert (Hle : 0 <= 1) by discriminate.
  split; [exact biuld_not_dispatchable |]. split; [exact Hle |].
  split; [reflexivity |].
  exact (proj1 (declined_suggestion_dispatches_nothing world_ok ["biuld"]
                  "biuld" [] 0 (fresh ∅ [""]) biuld_not_dispatchable Hle eq_refl)
               "build" "" [] biuld_first_qualifies_build eq_refl
               ltac:(discriminate) ltac:(discriminate)).
Defined.

Lemma world_ok_launches : forall h c, spawn world_ok h c <> LaunchFailed.
Proof. intros h c. discriminate. Defined.

Lemma do_clean_asks_per_removal_witness :
  (forall h c, spawn world_ok h c <> LaunchFailed)
  /\ stdin (fresh ∅ ["n"; "Y"]) = ["n"; "Y"]
  /\ spawns (emitted (fresh ∅ ["n"; "Y"])
               (do_clean world_ok true (fresh ∅ ["n"; "Y"])).2)
     = [EvRun (Argv ["rm"; "-f"; "build.log"])].
Proof.
  split; [exact world_ok_launches |]. split; [reflexivity |].
  exact (proj2 (proj2 (do_clean_asks_per_removal world_ok "n" "Y" []
                         (fresh ∅ ["n"; "Y"]) world_ok_launches eq_refl))).
Defined.

Lemma test_builds_with_flag_then_runs_witness :
  do_config world_ok (fresh ∅ []) = (Ret tt, configured)
  /\ spawn world_ok
       (trace configured
        ++ [test_flag_set; EvPrintStyle "Building project and tests"])
       (Argv (Str.split ninja_command)) = Exited 0
  /\ trace (parse world_ok ["test"; "run"] "test" ["run"] 1 (fresh ∅ [])).2
     = trace configured
       ++ [test_flag_set; EvPrintStyle "Building project and tests"; ninja_run]
       ++ [EvPrintStyle "Running tests"; ctest_run].
Proof.
  assert (H1 : do_config world_ok (fresh ∅ []) = (Ret tt, configured))
    by reflexivity.
  split; [exact H1 |]. split; [reflexivity |].
  exact (proj1 (proj2 (test_builds_with_flag_then_runs world_ok ["test"; "run"]
                         "run" 0 (fresh ∅ []) configured H1 eq_refl))).
Defined.

Lemma tokens_too_short_or_long_get_no_suggestion_witness :
  retry_avail_ (fresh ∅ []) = true
  /\ ((Str.len "b" < 2)%nat \/ (10 < Str.len "b")%nat)
  /\ autocomplete "b" (fresh ∅ [])
     = (Ret PyNone, log (EvPrint "") (set_retry false (fresh ∅ []))).
Proof.
  assert (H : (Str.len "b" < 2)%nat \/ (10 < Str.len "b")%nat)
    by (left; cbn; lia).
  split; [reflexivity |]. split; [exact H |].
  exact (proj2 (tokens_too_short_or_long_get_no_suggestion "b" (fresh ∅ [])
                  eq_refl) H).
Defined.

Lemma get_color_changes_colour_witness :
  get_color [5; 6; 2]%nat GREEN = Some (YELLOW, [2%nat])
  /\ YELLOW <> GREEN.
Proof.
  split; [reflexivity |].
  exact (proj1 (proj1 (get_color_changes_colour [5; 6; 2]%nat GREEN)
                  YELLOW [2%nat] eq_refl)).
Defined.

Lemma setup_installs_three_modules_witness :
  (forall h c, spawn world_ok h c <> LaunchFailed)
  /\ (setup world_ok "python3 -m pip" (fresh ∅ [])).1 = Ret tt.
Proof.
  split; [exact world_ok_launches |].
  exact (proj1 (setup_installs_three_modules world_ok "python3 -m pip"
                  (fresh ∅ []) world_ok_launches)).
Defined.

Lemma install_missing_needs_a_yes_witness :
  stdin (fresh ∅ [""]) = [""] /\ "" <> "y" /\ "" <> "Y"
  /\ install_missing world_ok (fresh ∅ [""])
     = (SysExit 0,
        set_stdin [] (log (EvInput "Install missing modules? Y/n ") (fresh ∅ [""]))).
Proof.
  split; [reflexivity |]. split; [discriminate |]. split; [discriminate |].
  exact (proj1 (install_missing_needs_a_yes world_ok (fresh ∅ [""]))
               "" [] eq_refl ltac:(discriminate) ltac:(discriminate)).
Defined.

Lemma parse_redispatches_at_most_once_witness :
  (2 <= 2)%nat
  /\ parse_depth world_ok 2 ["biuld"] "biuld" [] 0 (fresh ∅ ["y"])
     = parse world_ok ["biuld"] "biuld" [] 0 (fresh ∅ ["y"]).
Proof.
  assert (H : (2 <= 2)%nat) by lia.
  split; [exact H |].
  exact (parse_redispatches_at_most_once world_ok 2 ["biuld"] "biuld" [] 0
           (fresh ∅ ["y"]) H).
Defined.
